(** * Salesforce lead dashboard: record normalisation, filter state,
      filter evaluation and aggregate views.

    A shallow embedding of [Salesforce_streamlit.py].  Data frames are lists
    of typed rows, [st.session_state] is a finite map from widget keys to
    selections, grouped counts ([value_counts], [groupby(...).size()]) are
    finite maps from the grouping key to the count (the row order of those
    results is not modelled), and the sidebar is the list of events written
    to it. *)

From Stdlib Require Import ZArith List Ascii String Bool Lia.
From stdpp Require Import base option list gmap strings fin_maps fin_sets.

Local Open Scope string_scope.
Local Open Scope list_scope.
Local Open Scope nat_scope.

(** ** Python [str] methods

    Strings are modelled as ASCII text: the methods below follow CPython on
    code points below 128; a byte above 127 is taken as a character that is
    neither cased nor white space. *)
Module PyStr.

Definition code (c : ascii) : nat := nat_of_ascii c.

(** [str.isspace] on one character: TAB, LF, VT, FF, CR, FS, GS, RS, US
    and the space. *)
Definition isspace (c : ascii) : bool :=
  let n := code c in
  ((9 <=? n) && (n <=? 13)) || ((28 <=? n) && (n <=? 32)).

Definition is_upper (c : ascii) : bool :=
  let n := code c in (65 <=? n) && (n <=? 90).

Definition is_lower (c : ascii) : bool :=
  let n := code c in (97 <=? n) && (n <=? 122).

Definition is_cased (c : ascii) : bool := is_upper c || is_lower c.

Definition upper_char (c : ascii) : ascii :=
  if is_lower c then ascii_of_nat (code c - 32) else c.

Definition lower_char (c : ascii) : ascii :=
  if is_upper c then ascii_of_nat (code c + 32) else c.

(** [str.upper] *)
Fixpoint upper (s : string) : string :=
  match s with
  | EmptyString => EmptyString
  | String c s' => String (upper_char c) (upper s')
  end.

(** [str.lstrip] with no argument *)
Fixpoint lstrip (s : string) : string :=
  match s with
  | EmptyString => EmptyString
  | String c s' => if isspace c then lstrip s' else s
  end.

(** [str.rstrip] with no argument *)
Fixpoint rstrip (s : string) : string :=
  match s with
  | EmptyString => EmptyString
  | String c s' =>
      match rstrip s' with
      | EmptyString => if isspace c then EmptyString else String c EmptyString
      | t => String c t
      end
  end.

(** [str.strip] with no argument *)
Definition strip (s : string) : string := rstrip (lstrip s).

(** [str.title]: a cased character is upper-cased when the character
    before it is not cased (or there is none) and lower-cased otherwise;
    every other character is kept. *)
Fixpoint title_from (previous_is_cased : bool) (s : string) : string :=
  match s with
  | EmptyString => EmptyString
  | String c s' =>
      String (if previous_is_cased then lower_char c else upper_char c)
             (title_from (is_cased c) s')
  end.

Definition title (s : string) : string := title_from false s.

End PyStr.

(** ** Helper data and mappings *)

Definition ALLOWED_LEAD_SOURCES : list string :=
  [ "Indeed"; "Google Leads - Website"; "Website"; "Customer Referral";
    "Self Generated" ].

(** A centroid: latitude and longitude in millionths of a degree. *)
Record centroid := { lat : Z; lon : Z }.

(** [STATE_CENTROIDS]: a dict, in insertion order. *)
Definition STATE_CENTROIDS : list (string * centroid) :=
  [ ("AL", {| lat := 32806671; lon := -86791130 |});
    ("AK", {| lat := 61370716; lon := -152404419 |});
    ("AZ", {| lat := 33729759; lon := -111431221 |});
    ("AR", {| lat := 34969704; lon := -92373123 |});
    ("CA", {| lat := 36116203; lon := -119681564 |});
    ("CO", {| lat := 39059811; lon := -105311104 |});
    ("CT", {| lat := 41597782; lon := -72755371 |});
    ("DE", {| lat := 39318523; lon := -75507141 |});
    ("FL", {| lat := 27766279; lon := -81686783 |});
    ("GA", {| lat := 33040619; lon := -83643074 |});
    ("HI", {| lat := 21094318; lon := -157498337 |});
    ("ID", {| lat := 44240459; lon := -114478828 |});
    ("IL", {| lat := 40349457; lon := -88986137 |});
    ("IN", {| lat := 39849426; lon := -86258278 |});
    ("IA", {| lat := 42011539; lon := -93210526 |});
    ("KS", {| lat := 38526600; lon := -96726486 |});
    ("KY", {| lat := 37668140; lon := -84670067 |});
    ("LA", {| lat := 31169546; lon := -91867805 |});
    ("ME", {| lat := 44693947; lon := -69381927 |});
    ("MD", {| lat := 39063946; lon := -76802101 |});
    ("MA", {| lat := 42230171; lon := -71530106 |});
    ("MI", {| lat := 43326618; lon := -84536095 |});
    ("MN", {| lat := 45694454; lon := -93900192 |});
    ("MS", {| lat := 32741646; lon := -89678696 |});
    ("MO", {| lat := 38456085; lon := -92288368 |});
    ("MT", {| lat := 46921925; lon := -110454353 |});
    ("NE", {| lat := 41125370; lon := -98268082 |});
    ("NV", {| lat := 38313515; lon := -117055374 |});
    ("NH", {| lat := 43452492; lon := -71563896 |});
    ("NJ", {| lat := 40298904; lon := -74521011 |});
    ("NM", {| lat := 34840515; lon := -106248482 |});
    ("NY", {| lat := 42165726; lon := -74948051 |});
    ("NC", {| lat := 35630066; lon := -79806419 |});
    ("ND", {| lat := 47528912; lon := -99784012 |});
    ("OH", {| lat := 40388783; lon := -82764915 |});
    ("OK", {| lat := 35565342; lon := -96928917 |});
    ("OR", {| lat := 44572021; lon := -122070938 |});
    ("PA", {| lat := 40590752; lon := -77209755 |});
    ("RI", {| lat := 41680893; lon := -71511780 |});
    ("SC", {| lat := 33856892; lon := -80945007 |});
    ("SD", {| lat := 44299782; lon := -99438828 |});
    ("TN", {| lat := 35747845; lon := -86692345 |});
    ("TX", {| lat := 31054487; lon := -97563461 |});
    ("UT", {| lat := 40150032; lon := -111862434 |});
    ("VT", {| lat := 44045876; lon := -72710686 |});
    ("VA", {| lat := 37769337; lon := -78169968 |});
    ("WA", {| lat := 47400902; lon := -121490494 |});
    ("WV", {| lat := 38491226; lon := -80954453 |});
    ("WI", {| lat := 44268543; lon := -89616508 |});
    ("WY", {| lat := 42755966; lon := -107302490 |}) ].

Definition FULL_STATE_NAMES : list string :=
  [ "Alabama"; "Alaska"; "Arizona"; "Arkansas"; "California"; "Colorado";
    "Connecticut"; "Delaware"; "Florida"; "Georgia"; "Hawaii"; "Idaho";
    "Illinois"; "Indiana"; "Iowa"; "Kansas"; "Kentucky"; "Louisiana";
    "Maine"; "Maryland"; "Massachusetts"; "Michigan"; "Minnesota";
    "Mississippi"; "Missouri"; "Montana"; "Nebraska"; "Nevada";
    "New Hampshire"; "New Jersey"; "New Mexico"; "New York";
    "North Carolina"; "North Dakota"; "Ohio"; "Oklahoma"; "Oregon";
    "Pennsylvania"; "Rhode Island"; "South Carolina"; "South Dakota";
    "Tennessee"; "Texas"; "Utah"; "Vermont"; "Virginia"; "Washington";
    "West Virginia"; "Wisconsin"; "Wyoming"; "Washington D.C." ].

(** [set(STATE_CENTROIDS.keys())] *)
Definition STATE_ABBREVIATIONS : list string := map fst STATE_CENTROIDS.

(** [STATE_ABBR_TO_NAME]: a dict, in insertion order. *)
Definition STATE_ABBR_TO_NAME : list (string * string) :=
  [ ("AL", "Alabama"); ("AK", "Alaska"); ("AZ", "Arizona");
    ("AR", "Arkansas"); ("CA", "California"); ("CO", "Colorado");
    ("CT", "Connecticut"); ("DE", "Delaware"); ("FL", "Florida");
    ("GA", "Georgia"); ("HI", "Hawaii"); ("ID", "Idaho"); ("IL", "Illinois");
    ("IN", "Indiana"); ("IA", "Iowa"); ("KS", "Kansas"); ("KY", "Kentucky");
    ("LA", "Louisiana"); ("ME", "Maine"); ("MD", "Maryland");
    ("MA", "Massachusetts"); ("MI", "Michigan"); ("MN", "Minnesota");
    ("MS", "Mississippi"); ("MO", "Missouri"); ("MT", "Montana");
    ("NE", "Nebraska"); ("NV", "Nevada"); ("NH", "New Hampshire");
    ("NJ", "New Jersey"); ("NM", "New Mexico"); ("NY", "New York");
    ("NC", "North Carolina"); ("ND", "North Dakota"); ("OH", "Ohio");
    ("OK", "Oklahoma"); ("OR", "Oregon"); ("PA", "Pennsylvania");
    ("RI", "Rhode Island"); ("SC", "South Carolina"); ("SD", "South Dakota");
    ("TN", "Tennessee"); ("TX", "Texas"); ("UT", "Utah"); ("VT", "Vermont");
    ("VA", "Virginia"); ("WA", "Washington"); ("WV", "West Virginia");
    ("WI", "Wisconsin"); ("WY", "Wyoming"); ("DC", "Washington D.C.") ].

(** [x in xs] for a list or set of strings. *)
Definition str_in (x : string) (xs : list string) : bool :=
  bool_decide (x ∈ xs).

(** ** Raw lead rows

    One row of the frame built from the query result.  A cell of a text
    column is [Some s] for a [str] and [None] for a missing value ([None] or
    [NaN]); [row.get(field, default)] gives the default for a column the
    frame does not have, and the cell otherwise ([None] when it is not a
    [str]). *)
Module Raw.

(** The calendar date of a [CreatedDate] timestamp. *)
Record date := { year : Z; month : Z; day : Z }.

Record row := {
  Id : string;
  Name : option string;
  Status : option string;
  CreatedDate : date;
  LeadSource : option string;
  OwnerName : option string;
  Product__c : option string;
  State : option string;
  Lead_State_Province__c : option string;
  Street : option string
}.

(** [row.get(field, default)] *)
Definition get (r : row) (field : string) (default : option string)
  : option string :=
  if String.eqb field "State" then State r
  else if String.eqb field "Lead_State_Province__c"
       then Lead_State_Province__c r
  else if String.eqb field "Street" then Street r
  else if String.eqb field "Name" then Name r
  else if String.eqb field "Status" then Status r
  else if String.eqb field "LeadSource" then LeadSource r
  else if String.eqb field "OwnerName" then OwnerName r
  else if String.eqb field "Product__c" then Product__c r
  else if String.eqb field "Id" then Some (Id r)
  else if String.eqb field "CreatedDate" then None
  else default.

End Raw.

(** ** Helper functions *)

(** The function applied to each cell by [remap_lead_source]:
    [lambda x: x if x in ALLOWED_LEAD_SOURCES else "Other"]. *)
Definition remap_one (x : option string) : string :=
  match x with
  | Some s => if str_in s ALLOWED_LEAD_SOURCES then s else "Other"
  | None => "Other"
  end.

(** [remap_lead_source]: [Series.apply] of the function above. *)
Definition remap_lead_source (lead_sources : list (option string))
  : list string :=
  map remap_one lead_sources.

(** The inner loop of [determine_state]: the first abbreviation of
    [STATE_ABBR_TO_NAME.items()] whose name is the given one. *)
Fixpoint abbr_of_name (items : list (string * string)) (name : string)
  : option string :=
  match items with
  | [] => None
  | (abbr, nm) :: rest =>
      if String.eqb nm name then Some abbr else abbr_of_name rest name
  end.

(** The body of the loop of [determine_state] for one field value: [Some]
    for a [return], [None] when the loop goes on to the next field. *)
Definition match_value (value : option string) : option string :=
  match value with
  | Some v =>
      let value := PyStr.strip v in
      if str_in (PyStr.upper value) STATE_ABBREVIATIONS
      then Some (PyStr.upper value)
      else if str_in (PyStr.title value) FULL_STATE_NAMES
      then abbr_of_name STATE_ABBR_TO_NAME (PyStr.title value)
      else None
  | None => None
  end.

(** The loop of [determine_state] over the remaining fields. *)
Fixpoint determine_state_loop (r : Raw.row) (fields : list string)
  : option string :=
  match fields with
  | [] => None
  | field :: rest =>
      match match_value (Raw.get r field (Some "")) with
      | Some abbr => Some abbr
      | None => determine_state_loop r rest
      end
  end.

Definition determine_state (r : Raw.row) : option string :=
  determine_state_loop r ["State"; "Lead_State_Province__c"; "Street"].

(** ** Data fetching and processing *)

(** One row of the processed frame [df_leads]: the raw columns, with
    [LeadSource] overwritten by its remapped value and the new column
    [LeadState]. *)
Record lead := {
  raw : Raw.row;
  LeadSource : string;
  LeadState : option string
}.

Definition Status (r : lead) : option string := Raw.Status (raw r).
Definition OwnerName (r : lead) : option string := Raw.OwnerName (raw r).
Definition Product__c (r : lead) : option string := Raw.Product__c (raw r).
Definition CreatedDate (r : lead) : Raw.date := Raw.CreatedDate (raw r).

(** The two column assignments of [fetch_and_process_lead_data], row by
    row: [df_leads['LeadSource'] = remap_lead_source(...)] and
    [df_leads['LeadState'] = df_leads.apply(determine_state, axis=1)]. *)
Definition assign_columns (r : Raw.row) : lead :=
  {| raw := r;
     LeadSource := remap_one (Raw.LeadSource r);
     LeadState := determine_state r |}.

(** [df.dropna(subset=['LeadState'])] *)
Definition dropna_LeadState (df : list lead) : list lead :=
  filter (λ r, is_Some (LeadState r)) df.

(** The frame stored by [fetch_and_process_lead_data] for a non-empty
    query result. *)
Definition process_lead_records (records : list Raw.row) : list lead :=
  dropna_LeadState (map assign_columns records).

(** [fetch_and_process_lead_data]: the new value of
    [st.session_state.lead_data], given its old value and the records the
    query returns ([totalSize] is their number). *)
Definition fetch_and_process_lead_data
    (lead_data : option (list lead)) (records : list Raw.row)
  : option (list lead) :=
  match lead_data with
  | None =>
      if 0 <? length records
      then Some (process_lead_records records)
      else None
  | Some _ => lead_data
  end.

(** ** Filter state *)

(** The part of [st.session_state] that holds the five selections. *)
Abbreviation session := (gmap string (list string)).

(** The [on_change] callbacks.  Each reads its own key of the session
    state ([None]: the key is not set, an [AttributeError]) and writes it
    back when the selection has to change. *)
Definition update_year (ss : session) : option session :=
  selected ← ss !! "year_selection";
  if str_in "All" selected then
    if 1 <? length selected
    then Some (<["year_selection" :=
                  filter (λ year, year ≠ "All") selected]> ss)
    else Some ss
  else if bool_decide (selected = [])
  then Some (<["year_selection" := ["All"]]> ss)
  else Some ss.

Definition update_owner (ss : session) : option session :=
  selected ← ss !! "owner_selection";
  if str_in "All" selected then
    if 1 <? length selected
    then Some (<["owner_selection" :=
                  filter (λ owner, owner ≠ "All") selected]> ss)
    else Some ss
  else if bool_decide (selected = [])
  then Some (<["owner_selection" := ["All"]]> ss)
  else Some ss.

Definition update_lead_source (ss : session) : option session :=
  selected ← ss !! "lead_source_selection";
  if str_in "All" selected then
    if 1 <? length selected
    then Some (<["lead_source_selection" :=
                  filter (λ source, source ≠ "All") selected]> ss)
    else Some ss
  else if bool_decide (selected = [])
  then Some (<["lead_source_selection" := ["All"]]> ss)
  else Some ss.

Definition update_lead_status (ss : session) : option session :=
  selected ← ss !! "lead_status_selection";
  if str_in "All" selected then
    if 1 <? length selected
    then Some (<["lead_status_selection" :=
                  filter (λ status, status ≠ "All") selected]> ss)
    else Some ss
  else if bool_decide (selected = [])
  then Some (<["lead_status_selection" := ["All"]]> ss)
  else Some ss.

Definition update_product (ss : session) : option session :=
  selected ← ss !! "product_selection";
  if str_in "All" selected then
    if 1 <? length selected
    then Some (<["product_selection" :=
                  filter (λ product, product ≠ "All") selected]> ss)
    else Some ss
  else if bool_decide (selected = [])
  then Some (<["product_selection" := ["All"]]> ss)
  else Some ss.

(** The five multiselect widgets, with their [key] and [on_change]. *)
Inductive dimension := Year | Owner | Lead_Source | Lead_Status | Product.

#[global] Instance dimension_eq_dec : EqDecision dimension.
Proof. solve_decision. Defined.

Definition widget_key (d : dimension) : string :=
  match d with
  | Year => "year_selection"
  | Owner => "owner_selection"
  | Lead_Source => "lead_source_selection"
  | Lead_Status => "lead_status_selection"
  | Product => "product_selection"
  end.

Definition on_change (d : dimension) : session → option session :=
  match d with
  | Year => update_year
  | Owner => update_owner
  | Lead_Source => update_lead_source
  | Lead_Status => update_lead_status
  | Product => update_product
  end.

(** A user edit of one multiselect: the widget stores its new value under
    its key, then its callback runs. *)
Definition multiselect_change (d : dimension) (value : list string)
    (ss : session) : option session :=
  on_change d (<[widget_key d := value]> ss).

(** [if key not in st.session_state: st.session_state[key] = ['All']] *)
Definition init_selection (key : string) (ss : session) : session :=
  match ss !! key with
  | None => <[key := ["All"]]> ss
  | Some _ => ss
  end.

(** The initialisation of the selections under the given keys, in order. *)
Definition init_selections (keys : list string) (ss : session) : session :=
  foldl (λ ss key, init_selection key ss) ss keys.

(** The selections [main] initialises, on a fresh session state. *)
Definition initial_session : session :=
  init_selections
    [ "lead_status_selection"; "year_selection"; "owner_selection";
      "lead_source_selection"; "product_selection" ] ∅.

(** ** Filtering section *)

(** What [filtering_section] writes to the sidebar, widgets and headings
    apart. *)
Inductive sidebar_event :=
  | sidebar_error (message : string)
  | sidebar_write_total_leads (n : nat).

(** The order of [datetime.date]. *)
Definition date_leb (d1 d2 : Raw.date) : bool :=
  ((Raw.year d1 <? Raw.year d2)
   || ((Raw.year d1 =? Raw.year d2)
       && ((Raw.month d1 <? Raw.month d2)
           || ((Raw.month d1 =? Raw.month d2)
               && (Raw.day d1 <=? Raw.day d2)))))%Z.

Definition date_gtb (d1 d2 : Raw.date) : bool :=
  ((Raw.year d2 <? Raw.year d1)
   || ((Raw.year d2 =? Raw.year d1)
       && ((Raw.month d2 <? Raw.month d1)
           || ((Raw.month d2 =? Raw.month d1)
               && (Raw.day d2 <? Raw.day d1)))))%Z.

(** [Series.isin] on one cell of a text column: a missing value is in no
    list of strings. *)
Definition isin (cell : option string) (values : list string) : bool :=
  match cell with
  | Some s => str_in s values
  | None => false
  end.

Definition invalid_range_message : string :=
  "**Error:** 'From Date' must be earlier than or equal to 'To Date'. Please adjust the dates.".

Record filtering_result := {
  sidebar : list sidebar_event;
  session_after : session;
  df_filtered : list lead;
  show_lead_analysis : bool;
  show_monthly_distribution : bool;
  show_us_map : bool
}.

Section Filtering.

(** The builtin [int] on a [str]; [None] stands for a [ValueError]. *)
Variable int : string → option Z.

(** The year filter, with its [try] / [except ValueError]. *)
Definition year_filter (ss : session) (df : list lead)
  : list sidebar_event * list lead :=
  if negb (str_in "All" (ss !!! "year_selection")) then
    match mapM int (ss !!! "year_selection") with
    | Some selected_years =>
        ([], filter (λ r, Raw.year (CreatedDate r) ∈ selected_years) df)
    | None => ([sidebar_error "Invalid year selection."], df)
    end
  else ([], df).

Definition owner_filter (ss : session) (df : list lead) : list lead :=
  if negb (str_in "All" (ss !!! "owner_selection"))
  then filter (λ r, isin (OwnerName r) (ss !!! "owner_selection")) df
  else df.

Definition lead_source_filter (ss : session) (df : list lead) : list lead :=
  if negb (str_in "All" (ss !!! "lead_source_selection"))
  then filter (λ r, isin (Some (LeadSource r))
                         (ss !!! "lead_source_selection")) df
  else df.

Definition lead_status_filter (ss : session) (df : list lead) : list lead :=
  if negb (str_in "All" (ss !!! "lead_status_selection"))
  then filter (λ r, isin (Status r) (ss !!! "lead_status_selection")) df
  else df.

Definition product_filter (ss : session) (df : list lead) : list lead :=
  if negb (str_in "All" (ss !!! "product_selection"))
  then filter (λ r, isin (Product__c r) (ss !!! "product_selection")) df
  else df.

(** The date range filter, applied only to a valid range. *)
Definition date_range_filter (date_from date_to : Raw.date)
    (df : list lead) : list lead :=
  if date_leb date_from date_to
  then filter (λ r, date_leb date_from (CreatedDate r)
                    && date_leb (CreatedDate r) date_to) df
  else df.

(** [filtering_section], given the frame, the session state and the
    values of the two date inputs and the three checkboxes.  The widgets
    are taken to return these values: [main] passes a frame with a lead,
    for which [st.date_input] has an earliest and a latest [CreatedDate],
    and each [st.multiselect] is handed the stored selection, which it
    accepts when its values are among the options it computes from the
    frame.  On an empty frame, or on a stored selection that is not among
    the options, the source raises among its widgets and returns nothing;
    the definition describes the runs that get past them. *)
Definition filtering_section (df_leads : list lead) (ss : session)
    (date_from date_to : Raw.date)
    (lead_analysis monthly_distribution us_map : bool)
  : filtering_result :=
  let ss :=
    init_selections
      [ "year_selection"; "owner_selection"; "lead_source_selection";
        "lead_status_selection"; "product_selection" ] ss in
  let range_events :=
    if date_gtb date_from date_to
    then [sidebar_error invalid_range_message] else [] in
  let df_filtered := df_leads in
  let '(year_events, df_filtered) := year_filter ss df_filtered in
  let df_filtered := owner_filter ss df_filtered in
  let df_filtered := lead_source_filter ss df_filtered in
  let df_filtered := lead_status_filter ss df_filtered in
  let df_filtered := product_filter ss df_filtered in
  let df_filtered := date_range_filter date_from date_to df_filtered in
  {| sidebar :=
       range_events ++ year_events
         ++ [sidebar_write_total_leads (length df_filtered)];
     session_after := ss;
     df_filtered := df_filtered;
     show_lead_analysis := lead_analysis;
     show_monthly_distribution := monthly_distribution;
     show_us_map := us_map |}.

End Filtering.

(** ** Visualisation sections: the aggregate tables *)

Section Grouping.

Context `{Countable K}.

(** One more row of the group [k]; a row whose key is missing belongs to
    no group. *)
Definition count_key (k : option K) (counts : gmap K nat) : gmap K nat :=
  match k with
  | Some k => <[k := S (default 0 (counts !! k))]> counts
  | None => counts
  end.

(** [groupby(keys).size()]: the number of rows of each group, keyed by
    the group. *)
Definition group_size (keys : list (option K)) : gmap K nat :=
  foldr count_key ∅ keys.

(** The sum of a column of counts. *)
Definition sum_counts (counts : gmap K nat) : nat :=
  map_fold (λ _ n acc, n + acc) 0 counts.

End Grouping.

(** [Series.value_counts()]: the count of each value, missing values left
    out. *)
Definition value_counts (column : list (option string)) : gmap string nat :=
  group_size column.

Record analysis_tables := {
  status_counts : gmap string nat;
  lead_source_counts : gmap string nat
}.

(** [lead_analysis_charts]: the two tables it shows, [None] when the frame
    is empty and only a notice is shown. *)
Definition lead_analysis_charts (df_filtered : list lead)
  : option analysis_tables :=
  match df_filtered with
  | [] => None
  | _ =>
      Some {| status_counts := value_counts (map Status df_filtered);
              lead_source_counts :=
                value_counts (map (λ r, Some (LeadSource r)) df_filtered) |}
  end.

Definition SPECIFIC_LEAD_SOURCES : list string :=
  [ "Google Leads - Website"; "Website"; "Indeed"; "Other" ].

(** A frame indexed by state code: its columns and, for each index value,
    the cells of its row. *)
Record frame (A : Type) := {
  columns : gset string;
  rows : gmap string (gmap string A)
}.
Arguments columns {A} _.
Arguments rows {A} _.

(** [pivot(index='LeadState', columns='LeadSource', values='Count')]: one
    row for each state and one column for each source that occur in the
    counts; a cell with no count is missing. *)
Definition pivot (counts : gmap (string * string) nat)
  : frame (option nat) :=
  let index : gset string := set_map fst (dom counts) in
  let cols : gset string := set_map snd (dom counts) in
  {| columns := cols;
     rows :=
       set_to_map
         (λ st, (st, set_to_map (λ src, (src, counts !! (st, src))) cols))
         index |}.

(** [fillna(0)] *)
Definition fillna0 (fr : frame (option nat)) : frame nat :=
  {| columns := columns fr;
     rows := (λ row : gmap string (option nat), default 0 <$> row) <$> rows fr |}.

(** [if source not in lead_pivot.columns: lead_pivot[source] = 0] *)
Definition ensure_column (fr : frame nat) (source : string) : frame nat :=
  if bool_decide (source ∈ columns fr) then fr
  else {| columns := {[source]} ∪ columns fr;
          rows := (λ row : gmap string nat, <[source := 0]> row) <$> rows fr |}.

(** One row of the per-state table. *)
Record state_row := {
  source_counts : gmap string nat;
  Total : option nat;
  State_Name : string;
  state_centroid : option centroid
}.

(** The grouping key of [groupby(['LeadState', 'LeadSource'])] for a row. *)
Definition state_source_key (r : lead) : option (string * string) :=
  st ← LeadState r; Some (st, LeadSource r).

(** [us_map_visualization]: the table [lead_pivot] behind the map and the
    ledger, keyed by [LeadState]. *)
Definition us_map_visualization (df_filtered : list lead)
  : gmap string state_row :=
  let lead_counts_total : gmap string nat :=
    group_size (map LeadState df_filtered) in
  let lead_counts_sources : gmap (string * string) nat :=
    group_size (map state_source_key df_filtered) in
  let lead_counts_sources :=
    filter (λ kv, snd (fst kv) ∈ SPECIFIC_LEAD_SOURCES) lead_counts_sources in
  let lead_pivot := fillna0 (pivot lead_counts_sources) in
  let lead_pivot := foldl ensure_column lead_pivot SPECIFIC_LEAD_SOURCES in
  map_imap
    (λ st counts,
       (* merge of the totals, how='left' *)
       let total := lead_counts_total !! st in
       (* map to the state name, then dropna on it *)
       name ← (list_to_map STATE_ABBR_TO_NAME : gmap string string) !! st;
       (* merge of the centroids, how='left' *)
       let c := (list_to_map STATE_CENTROIDS : gmap string centroid) !! st in
       Some {| source_counts := counts; Total := total;
               State_Name := name; state_centroid := c |})
    (rows lead_pivot).

(** ** Notions of the specification and example data *)

(** The six canonical lead sources: the allowed ones and ["Other"]. *)
Definition canonical_lead_sources : list string :=
  ALLOWED_LEAD_SOURCES ++ ["Other"].

(** The number of raw records whose state cannot be determined. *)
Definition dropped_count (records : list Raw.row) : nat :=
  length (filter (λ r, determine_state r = None) records).

(** A raw record with the given location fields, lead source and status. *)
Definition example_row (state province street : option string)
    (source status : option string) : Raw.row :=
  {| Raw.Id := "00Q5e00000A1bCd"; Raw.Name := Some "Ada Lovelace";
     Raw.Status := status;
     Raw.CreatedDate := {| Raw.year := 2024; Raw.month := 2; Raw.day := 14 |};
     Raw.LeadSource := source; Raw.OwnerName := Some "Sam Owner";
     Raw.Product__c := None;
     Raw.State := state; Raw.Lead_State_Province__c := province;
     Raw.Street := street |}.

(** The reconciliation the five callbacks share: the selection a callback
    leaves under its key when it finds [selected] there. *)
Definition reconcile (selected : list string) : list string :=
  if str_in "All" selected then
    if 1 <? length selected
    then filter (λ value, value ≠ "All") selected
    else selected
  else if bool_decide (selected = []) then ["All"]
  else selected.

(** A selection is either ["All"] alone or a non-empty list of concrete
    values. *)
Definition selection_ok (selected : list string) : Prop :=
  selected = ["All"] ∨ (selected ≠ [] ∧ "All" ∉ selected).

(** The session states the dashboard can reach: the initial one, and the
    one after any edit of any multiselect.  A multiselect submits a list of
    distinct options. *)
Inductive reachable : session → Prop :=
  | reachable_initial : reachable initial_session
  | reachable_edit ss d value ss' :
      reachable ss →
      NoDup value →
      multiselect_change d value ss = Some ss' →
      reachable ss'.

(** A session in which the year selection is the subset ["2024"]. *)
Definition session_2024 : session :=
  <["year_selection" := ["2024"]]> initial_session.

(** The five selection filters of [filtering_section], in its order. *)
Definition apply_dimension_filters (int : string → option Z)
    (ss : session) (df : list lead) : list lead :=
  product_filter ss
    (lead_status_filter ss
       (lead_source_filter ss
          (owner_filter ss (snd (year_filter int ss df))))).

(** A cell passes a selection that holds "All" or the value of the cell. *)
Definition passes (selection : list string) (cell : option string) : Prop :=
  "All" ∈ selection ∨ ∃ s, cell = Some s ∧ s ∈ selection.

(** A year passes a selection that holds "All", or whose numbers include
    it; a selection that [int] rejects filters nothing. *)
Definition year_passes (int : string → option Z) (selection : list string)
    (y : Z) : Prop :=
  "All" ∈ selection
  ∨ mapM int selection = None
  ∨ ∃ years, mapM int selection = Some years ∧ y ∈ years.

(** [int] on a non-empty string of ASCII digits, for the examples. *)
Fixpoint digits_value (acc : Z) (s : string) : option Z :=
  match s with
  | EmptyString => Some acc
  | String c s' =>
      let n := nat_of_ascii c in
      if (48 <=? n) && (n <=? 57)
      then digits_value (10 * acc + Z.of_nat (n - 48)) s'
      else None
  end.

Definition int_of_digits (s : string) : option Z :=
  match s with
  | EmptyString => None
  | _ => digits_value 0 s
  end.

Definition example_date (y m d : Z) : Raw.date :=
  {| Raw.year := y; Raw.month := m; Raw.day := d |}.

(** A processed frame of three leads, created in January, February and
    March 2024. *)
Definition example_frame : list lead :=
  [ {| raw := {| Raw.Id := "00Q1"; Raw.Name := None;
                 Raw.Status := Some "New";
                 Raw.CreatedDate := example_date 2024 1 15;
                 Raw.LeadSource := Some "Website";
                 Raw.OwnerName := Some "Ann"; Raw.Product__c := None;
                 Raw.State := Some "CA";
                 Raw.Lead_State_Province__c := None; Raw.Street := None |};
       LeadSource := "Website"; LeadState := Some "CA" |};
    {| raw := {| Raw.Id := "00Q2"; Raw.Name := None;
                 Raw.Status := Some "New";
                 Raw.CreatedDate := example_date 2024 2 20;
                 Raw.LeadSource := Some "Indeed";
                 Raw.OwnerName := Some "Bob"; Raw.Product__c := None;
                 Raw.State := Some "TX";
                 Raw.Lead_State_Province__c := None; Raw.Street := None |};
       LeadSource := "Indeed"; LeadState := Some "TX" |};
    {| raw := {| Raw.Id := "00Q3"; Raw.Name := None;
                 Raw.Status := Some "Closed";
                 Raw.CreatedDate := example_date 2024 3 5;
                 Raw.LeadSource := Some "Customer Referral";
                 Raw.OwnerName := Some "Ann"; Raw.Product__c := None;
                 Raw.State := Some "CA";
                 Raw.Lead_State_Province__c := None; Raw.Street := None |};
       LeadSource := "Customer Referral"; LeadState := Some "CA" |} ].

(** The number of rows whose grouping key is [k]. *)
Definition occurrences `{EqDecision K} (k : K) (keys : list (option K))
  : nat :=
  length (filter (λ x, x = Some k) keys).

(** A processed lead of the given state and source, with or without a
    status. *)
Definition example_lead (state source : string) (status : option string)
  : lead :=
  {| raw := {| Raw.Id := "00Q9"; Raw.Name := None; Raw.Status := status;
               Raw.CreatedDate := example_date 2024 5 6;
               Raw.LeadSource := Some source;
               Raw.OwnerName := Some "Ann"; Raw.Product__c := None;
               Raw.State := Some state;
               Raw.Lead_State_Province__c := None; Raw.Street := None |};
     LeadSource := source; LeadState := Some state |}.

(** A filtered frame of two leads: one in California from a customer
    referral, one in Texas from the website. *)
Definition referral_frame : list lead :=
  [ example_lead "CA" "Customer Referral" (Some "New");
    example_lead "TX" "Website" (Some "New") ].

(** The number of leads of a state, of a state and a source, and of a
    state with a source outside the displayed ones. *)
Definition state_count (st : string) (df : list lead) : nat :=
  length (filter (λ r, LeadState r = Some st) df).

Definition state_source_count (st src : string) (df : list lead) : nat :=
  length (filter (λ r, LeadState r = Some st ∧ LeadSource r = src) df).

Definition state_other_count (st : string) (df : list lead) : nat :=
  length (filter (λ r, LeadState r = Some st
                       ∧ LeadSource r ∉ SPECIFIC_LEAD_SOURCES) df).

(** A frame is the pivot of [counts] with zeros for the missing cells,
    possibly with more columns of zeros: its rows are the states of
    [counts], its columns include the sources of [counts], and each cell of
    a column is the count, 0 when there is none. *)
Definition frame_for (counts : gmap (string * string) nat)
    (fr : frame nat) : Prop :=
  (∀ st, is_Some (rows fr !! st) ↔ ∃ src, is_Some (counts !! (st, src)))
  ∧ (∀ st src, is_Some (counts !! (st, src)) → src ∈ columns fr)
  ∧ (∀ st row, rows fr !! st = Some row →
       ∀ src, row !! src
              = if decide (src ∈ columns fr)
                then Some (default 0 (counts !! (st, src))) else None).

(** The counts [us_map_visualization] pivots: those of the displayed
    sources. *)
Definition displayed_counts (df : list lead) : gmap (string * string) nat :=
  filter (λ kv, snd (fst kv) ∈ SPECIFIC_LEAD_SOURCES)
         (group_size (map state_source_key df)).

(** ** Further functions of the dashboard and notions for their properties *)

(** [calculate_table_height] *)
Definition calculate_table_height
    (row_count row_height min_height max_height : Z) : Z :=
  let total_height := (row_count * row_height)%Z in
  Z.max (Z.min total_height max_height) min_height.

(** [calculate_table_height(row_count)], with the default row height and
    bounds. *)
Definition default_table_height (row_count : Z) : Z :=
  calculate_table_height row_count 30 200 600.

(** [str.lower] *)
Fixpoint py_lower (s : string) : string :=
  match s with
  | EmptyString => EmptyString
  | String c s' => String (PyStr.lower_char c) (py_lower s')
  end.

(** A raw record with the same text transformation applied to its three
    location fields. *)
Definition map_location (f : string → string) (r : Raw.row) : Raw.row :=
  {| Raw.Id := Raw.Id r; Raw.Name := Raw.Name r;
     Raw.Status := Raw.Status r; Raw.CreatedDate := Raw.CreatedDate r;
     Raw.LeadSource := Raw.LeadSource r; Raw.OwnerName := Raw.OwnerName r;
     Raw.Product__c := Raw.Product__c r;
     Raw.State := f <$> Raw.State r;
     Raw.Lead_State_Province__c := f <$> Raw.Lead_State_Province__c r;
     Raw.Street := f <$> Raw.Street r |}.

(** The two dicts as finite maps. *)
Definition state_names : gmap string string :=
  list_to_map STATE_ABBR_TO_NAME.

Definition state_centroids : gmap string centroid :=
  list_to_map STATE_CENTROIDS.

(** A string of white space only. *)
Fixpoint all_space (s : string) : bool :=
  match s with
  | EmptyString => true
  | String c s' => PyStr.isspace c && all_space s'
  end.

(** The keys [main] and [filtering_section] initialise, each in its
    order. *)
Definition main_keys : list string :=
  [ "lead_status_selection"; "year_selection"; "owner_selection";
    "lead_source_selection"; "product_selection" ].

Definition filtering_keys : list string :=
  [ "year_selection"; "owner_selection"; "lead_source_selection";
    "lead_status_selection"; "product_selection" ].

(** Whether [filtering_section] keeps a lead: one test for each of its six
    filters, on this lead alone. *)
Definition selection_keeps (selection : list string) (cell : option string)
  : bool :=
  str_in "All" selection || isin cell selection.

Definition year_keeps (int : string → option Z) (selection : list string)
    (y : Z) : bool :=
  str_in "All" selection
  || match mapM int selection with
     | Some selected_years => bool_decide (y ∈ selected_years)
     | None => true
     end.

Definition range_keeps (date_from date_to d : Raw.date) : bool :=
  negb (date_leb date_from date_to)
  || (date_leb date_from d && date_leb d date_to).

Definition lead_kept (int : string → option Z) (ss : session)
    (date_from date_to : Raw.date) (r : lead) : bool :=
  year_keeps int (ss !!! "year_selection") (Raw.year (CreatedDate r))
  && selection_keeps (ss !!! "owner_selection") (OwnerName r)
  && selection_keeps (ss !!! "lead_source_selection") (Some (LeadSource r))
  && selection_keeps (ss !!! "lead_status_selection") (Status r)
  && selection_keeps (ss !!! "product_selection") (Product__c r)
  && range_keeps date_from date_to (CreatedDate r).

(** The cell of a lead that a dimension with a text column filters on. *)
Definition dimension_cell (d : dimension) (r : lead) : option string :=
  match d with
  | Year => None
  | Owner => OwnerName r
  | Lead_Source => Some (LeadSource r)
  | Lead_Status => Status r
  | Product => Product__c r
  end.

Definition invalid_year_message : string := "Invalid year selection.".

(** *** Monthly lead distribution *)

Definition month_order : list string :=
  [ "January"; "February"; "March"; "April"; "May"; "June";
    "July"; "August"; "September"; "October"; "November"; "December" ].

(** [dt.month_name()] of a month number.  The month of a timestamp is from
    1 to 12; any other number has no name. *)
Definition month_name (m : Z) : option string :=
  if (1 <=? m)%Z then month_order !! Z.to_nat (m - 1) else None.

(** The grouping key of [groupby(['Month', 'Status'])] for a row. *)
Definition month_status_key (r : lead) : option (string * string) :=
  m ← month_name (Raw.month (CreatedDate r));
  s ← Status r;
  Some (m, s).

(** [groupby('Month')['Count'].sum()] on the counts of the groups: the sum
    of the counts of each month. *)
Definition sum_by_month (counts : gmap (string * string) nat)
  : gmap string nat :=
  map_fold (λ k n totals, <[fst k := n + default 0 (totals !! fst k)]> totals)
           ∅ counts.

(** What [monthly_lead_distribution_chart] draws: the bars, one for each
    month and status with its count and the total of its month, and the
    annotations, the total of each month.  The order of the bars is not
    modelled. *)
Record monthly_chart := {
  df_monthly : gmap (string * string) (nat * nat);
  df_month_totals : gmap string nat
}.

(** [monthly_lead_distribution_chart]: [None] when the frame is empty and
    only a notice is shown. *)
Definition monthly_lead_distribution_chart (df_filtered : list lead)
  : option monthly_chart :=
  match df_filtered with
  | [] => None
  | _ =>
      let counts := group_size (map month_status_key df_filtered) in
      let totals := sum_by_month counts in
      (* merge(df_month_totals, on='Month') *)
      let merged :=
        map_imap (λ k n, total ← totals !! fst k; Some (n, total)) counts in
      Some {| df_monthly := merged; df_month_totals := totals |}
  end.

(** The number of rows whose key has the month [m]. *)
Definition month_occurrences (m : string)
    (keys : list (option (string * string))) : nat :=
  length (filter (λ k, fst <$> k = Some m) keys).

(** *** Login, data loading and the main flow *)

(** The keys of [st.session_state] about the login and the data. *)
Record app_state := {
  logged_in : bool;
  sf : option (string * string);
  lead_data : option (list lead);
  login_message : string;
  login_success : bool
}.

(** The state after the initialisation at the top of [main], on a fresh
    session. *)
Definition initial_app_state : app_state :=
  {| logged_in := false; sf := None; lead_data := None;
     login_message := ""; login_success := false |}.

(** What the login call to Salesforce does: it returns a session id and an
    instance, or raises [SalesforceAuthenticationFailed], or raises
    another exception, with its text. *)
Inductive login_outcome :=
  | login_ok (session_id instance : string)
  | login_authentication_failed
  | login_exception (e : string).

(** What the query for the leads does: it returns the records or raises
    an exception, with its text. *)
Inductive query_outcome :=
  | query_records (records : list Raw.row)
  | query_exception (e : string).

(** Messages shown on the page and lines written to the log. *)
Inductive ui_event :=
  | st_warning (message : string)
  | st_success (message : string)
  | st_error (message : string)
  | st_balloons
  | logger_info (message : string)
  | logger_info_fetched (n : nat)
  | logger_warning (message : string)
  | logger_error (message : string).

(** [handle_login] *)
Definition handle_login (outcome : login_outcome) (st : app_state)
  : list ui_event * app_state :=
  match outcome with
  | login_ok session_id instance =>
      ( [ logger_info "Attempting to authenticate with Salesforce.";
          logger_info "Salesforce authentication successful." ],
        {| logged_in := true; sf := Some (instance, session_id);
           lead_data := lead_data st;
           login_message := "Logged in to Salesforce successfully!";
           login_success := true |} )
  | login_authentication_failed =>
      ( [ logger_info "Attempting to authenticate with Salesforce.";
          logger_error "Salesforce authentication failed." ],
        {| logged_in := false; sf := sf st; lead_data := lead_data st;
           login_message :=
             "Authentication failed. Please check your credentials.";
           login_success := false |} )
  | login_exception e =>
      ( [ logger_info "Attempting to authenticate with Salesforce.";
          logger_error "An unexpected error occurred during login." ],
        {| logged_in := false; sf := sf st; lead_data := lead_data st;
           login_message := String.append "An error occurred: " e;
           login_success := false |} )
  end.

(** The truth value of a [str]: it is not empty. *)
Definition truthy (s : string) : bool := negb (String.eqb s "").

(** The display and reset of the login message, as [authentication_section]
    and [main] both have it; [main] adds the balloons to a success. *)
Definition show_login_message (balloons : bool) (st : app_state)
  : list ui_event * app_state :=
  if truthy (login_message st) then
    ( (if login_success st
       then (if balloons then [st_balloons] else [])
            ++ [st_success (login_message st)]
       else [st_error (login_message st)]),
      {| logged_in := logged_in st; sf := sf st; lead_data := lead_data st;
         login_message := ""; login_success := false |} )
  else ([], st).

(** [authentication_section], given the three credentials typed, whether
    the Login button was pressed and what the login call does if made. *)
Definition authentication_section (st : app_state)
    (username password security_token : string) (login_pressed : bool)
    (outcome : login_outcome) : list ui_event * app_state :=
  if negb (logged_in st) then
    let '(events, st) :=
      if login_pressed then
        if truthy username && truthy password && truthy security_token
        then handle_login outcome st
        else ([st_warning "Please provide all required credentials."], st)
      else ([], st) in
    let '(events', st) := show_login_message false st in
    (events ++ events', st)
  else ([], st).

(** [fetch_and_process_lead_data] with what it shows and logs, given what
    the query does if made.  [logger_info_fetched n] is the log line with
    the number of leads of the stored frame. *)
Definition fetch_lead_data (st : app_state) (query : query_outcome)
  : list ui_event * app_state :=
  match lead_data st with
  | Some _ => ([], st)
  | None =>
      match query with
      | query_records records =>
          match fetch_and_process_lead_data None records with
          | Some df_leads =>
              ( [ logger_info "Fetching lead data from Salesforce.";
                  logger_info_fetched (length df_leads) ],
                {| logged_in := logged_in st; sf := sf st;
                   lead_data := Some df_leads;
                   login_message := login_message st;
                   login_success := login_success st |} )
          | None =>
              ( [ logger_info "Fetching lead data from Salesforce.";
                  st_warning "No lead records found.";
                  logger_warning "No lead records found in Salesforce." ],
                st )
          end
      | query_exception e =>
          ( [ logger_info "Fetching lead data from Salesforce.";
              logger_error "An error occurred while fetching lead data.";
              st_error
                (String.append
                   "An error occurred while fetching lead data: " e) ],
            st )
      end
  end.

(** [filtered_records_table], as far as its size goes: the height of the
    grid of the filtered records, [None] when the frame is empty and a
    notice is shown instead.  The cells of the grid are not modelled. *)
Definition filtered_records_table (df_filtered : list lead) : option Z :=
  match df_filtered with
  | [] => None
  | _ => Some (default_table_height (Z.of_nat (length df_filtered)))
  end.

(** What the dashboard shows for the loaded frame: the result of the
    filtering section, the tables of the sections switched on and the
    height of the grid of records. *)
Record dashboard := {
  filtering : filtering_result;
  analysis : option analysis_tables;
  monthly : option monthly_chart;
  us_map : option (gmap string state_row);
  records_table : option Z
}.

(** The values of the widgets in one run of the script and what the
    external calls do in it. *)
Record run_inputs := {
  username : string;
  password : string;
  security_token : string;
  login_pressed : bool;
  login_result : login_outcome;
  query_result : query_outcome;
  date_from : Raw.date;
  date_to : Raw.date;
  lead_analysis_checked : bool;
  monthly_distribution_checked : bool;
  us_map_checked : bool
}.

Record run_result := {
  events : list ui_event;
  state_after : app_state;
  selections_after : session;
  shown : option dashboard
}.

Section Main.

(** The builtin [int] on a [str]; [None] stands for a [ValueError]. *)
Variable int : string → option Z.

(** The dashboard for a loaded, non-empty frame. *)
Definition render_dashboard (df_leads : list lead) (ss : session)
    (inp : run_inputs) : dashboard :=
  let res :=
    filtering_section int df_leads ss (date_from inp) (date_to inp)
      (lead_analysis_checked inp) (monthly_distribution_checked inp)
      (us_map_checked inp) in
  {| filtering := res;
     analysis :=
       if show_lead_analysis res
       then lead_analysis_charts (df_filtered res) else None;
     monthly :=
       if show_monthly_distribution res
       then monthly_lead_distribution_chart (df_filtered res) else None;
     us_map :=
       if show_us_map res
       then Some (us_map_visualization (df_filtered res)) else None;
     records_table := filtered_records_table (df_filtered res) |}.

(** One run of [main] on the session state, with the widget values and
    external results of that run. *)
Definition main (st : app_state) (ss : session) (inp : run_inputs)
  : run_result :=
  let ss := init_selections main_keys ss in
  let '(auth_events, st) :=
    authentication_section st (username inp) (password inp)
      (security_token inp) (login_pressed inp) (login_result inp) in
  if logged_in st then
    let '(message_events, st) := show_login_message true st in
    let '(fetch_events, st) :=
      match lead_data st with
      | None => fetch_lead_data st (query_result inp)
      | Some _ => ([], st)
      end in
    match lead_data st with
    | Some (r :: df) =>
        let board := render_dashboard (r :: df) ss inp in
        {| events :=
             auth_events ++ message_events ++ fetch_events
               ++ [st_success "Data loaded successfully!"];
           state_after := st;
           selections_after := session_after (filtering board);
           shown := Some board |}
    | _ =>
        {| events :=
             auth_events ++ message_events ++ fetch_events
               ++ [st_warning "No data available to display the dashboard."];
           state_after := st;
           selections_after := ss;
           shown := None |}
    end
  else
    {| events := auth_events; state_after := st;
       selections_after := ss; shown := None |}.

End Main.

(** The login and data states of a session: the initial one, and the one
    after any run of [main], whatever the selections and widget values of
    that run. *)
Inductive reachable_state (int : string → option Z) : app_state → Prop :=
  | reachable_state_initial : reachable_state int initial_app_state
  | reachable_state_run st ss inp :
      reachable_state int st →
      reachable_state int (state_after (main int st ss inp)).

(** What holds of the login keys between two runs. *)
Definition login_invariant (st : app_state) : Prop :=
  login_message st = ""
  ∧ login_success st = false
  ∧ (logged_in st = true ↔ is_Some (sf st)).

Definition attempt_message : string :=
  "Attempting to authenticate with Salesforce.".

Definition credentials_message : string :=
  "Please provide all required credentials.".

Definition fetching_message : string :=
  "Fetching lead data from Salesforce.".

Definition no_data_message : string :=
  "No data available to display the dashboard.".

(** The three credentials are all typed in. *)
Definition credentials_given (inp : run_inputs) : bool :=
  truthy (username inp) && truthy (password inp)
  && truthy (security_token inp).

(** The widget values of a run in which the user presses Login with the
    three credentials typed in, and what the two external calls do. *)
Definition example_inputs (login : login_outcome) (query : query_outcome)
  : run_inputs :=
  {| username := "ada@example.com"; password := "secret";
     security_token := "token"; login_pressed := true;
     login_result := login; query_result := query;
     date_from := example_date 2024 1 1; date_to := example_date 2024 12 31;
     lead_analysis_checked := true; monthly_distribution_checked := true;
     us_map_checked := true |}.

(** A selection is at least as wide as another: it holds "All" or every
    value of the other. *)
Definition wider_selection (sel sel' : list string) : Prop :=
  "All" ∈ sel' ∨ ∀ v, v ∈ sel → v ∈ sel'.

(** Each of the five selections of [ss'] is at least as wide as that of
    [ss]. *)
Definition selections_included (ss ss' : session) : Prop :=
  ∀ d, wider_selection (ss !!! widget_key d) (ss' !!! widget_key d).

(** * Record normaliser *)

Lemma get_State r d : Raw.get r "State" d = Raw.State r.
Proof. reflexivity. Qed.

Lemma get_Lead_State_Province__c r d :
  Raw.get r "Lead_State_Province__c" d = Raw.Lead_State_Province__c r.
Proof. reflexivity. Qed.

Lemma get_Street r d : Raw.get r "Street" d = Raw.Street r.
Proof. reflexivity. Qed.

(** [determine_state] as the first match among the three fields. *)
Lemma determine_state_unfold r :
  determine_state r =
    match match_value (Raw.State r) with
    | Some abbr => Some abbr
    | None =>
        match match_value (Raw.Lead_State_Province__c r) with
        | Some abbr => Some abbr
        | None => match_value (Raw.Street r)
        end
    end.
Proof.
  unfold determine_state. cbn [determine_state_loop].
  rewrite get_State, get_Lead_State_Province__c, get_Street.
  repeat case_match; reflexivity.
Qed.

Lemma str_in_true x xs : str_in x xs = true ↔ x ∈ xs.
Proof. unfold str_in. apply bool_decide_eq_true. Qed.

Lemma str_in_false x xs : str_in x xs = false ↔ x ∉ xs.
Proof. unfold str_in. apply bool_decide_eq_false. Qed.

Lemma abbr_of_name_Some items name abbr :
  abbr_of_name items name = Some abbr → (abbr, name) ∈ items.
Proof.
  induction items as [|[a n] items IH]; cbn; [discriminate|].
  destruct (String.eqb_spec n name) as [->|_].
  - intros [= ->]. left.
  - intros Hrest. right. auto.
Qed.

(** A field whose trimmed, upper-cased value is one of the abbreviations
    resolves to it. *)
Lemma match_value_abbreviation s :
  PyStr.upper (PyStr.strip s) ∈ STATE_ABBREVIATIONS →
  match_value (Some s) = Some (PyStr.upper (PyStr.strip s)).
Proof.
  intros Hin. cbn [match_value].
  apply str_in_true in Hin. rewrite Hin. reflexivity.
Qed.

(** A record whose State, trimmed and upper-cased, is one of the
    abbreviations resolves to it. *)
Lemma determine_state_abbreviation r s :
  Raw.State r = Some s →
  PyStr.upper (PyStr.strip s) ∈ STATE_ABBREVIATIONS →
  determine_state r = Some (PyStr.upper (PyStr.strip s)).
Proof.
  intros Hs Hin. rewrite determine_state_unfold, Hs.
  by rewrite match_value_abbreviation.
Qed.

(** What a match of one field value means. *)
Lemma match_value_Some value code :
  match_value value = Some code →
  ∃ s, value = Some s ∧
    ((PyStr.upper (PyStr.strip s) = code ∧ code ∈ STATE_ABBREVIATIONS)
     ∨ ((PyStr.upper (PyStr.strip s) ∉ STATE_ABBREVIATIONS)
        ∧ PyStr.title (PyStr.strip s) ∈ FULL_STATE_NAMES
        ∧ (code, PyStr.title (PyStr.strip s)) ∈ STATE_ABBR_TO_NAME)).
Proof.
  destruct value as [s|]; cbn [match_value]; [|discriminate].
  intros Hm. exists s. split; [reflexivity|].
  destruct (str_in (PyStr.upper (PyStr.strip s)) STATE_ABBREVIATIONS) eqn:Hup.
  - left. injection Hm as <-. split; [reflexivity|]. by apply str_in_true.
  - right. apply str_in_false in Hup.
    destruct (str_in (PyStr.title (PyStr.strip s)) FULL_STATE_NAMES) eqn:Hti;
      [|discriminate].
    apply str_in_true in Hti. eauto using abbr_of_name_Some.
Qed.

Lemma elem_of_process_lead_records records l :
  l ∈ process_lead_records records ↔
  ∃ r, r ∈ records ∧ l = assign_columns r ∧ is_Some (determine_state r).
Proof.
  unfold process_lead_records, dropna_LeadState.
  rewrite list_elem_of_filter, list_elem_of_fmap. split.
  - intros [Hst (r & -> & Hr)]. exists r. auto.
  - intros (r & Hr & -> & Hst). split; [exact Hst|]. exists r. auto.
Qed.

Lemma process_lead_records_length records :
  length (process_lead_records records) + dropped_count records
  = length records.
Proof.
  unfold process_lead_records, dropna_LeadState, dropped_count.
  induction records as [|r records IH]; [reflexivity|].
  cbn [map]. rewrite !filter_cons. cbn [assign_columns LeadState].
  destruct (determine_state r) as [st|] eqn:Hst.
  - rewrite decide_True by eauto. rewrite decide_False by discriminate.
    cbn [length]. lia.
  - rewrite decide_False by (intros [? ?]; discriminate).
    rewrite decide_True by reflexivity.
    cbn [length]. lia.
Qed.

Lemma elem_of_canonical s :
  s ∈ canonical_lead_sources ↔ s ∈ ALLOWED_LEAD_SOURCES ∨ s = "Other".
Proof.
  unfold canonical_lead_sources.
  rewrite elem_of_app, list_elem_of_singleton. reflexivity.
Qed.

(** C5: every raw lead-source cell that is one of the six canonical values
    is kept as it is, every other cell, a missing one included, becomes
    ["Other"], and the remapped cell is always one of the six canonical
    values. *)
Theorem remap_lead_source_canonical
    (lead_sources : list (option string)) (i : nat) (x : option string) :
  lead_sources !! i = Some x →
  ∃ y, remap_lead_source lead_sources !! i = Some y
       ∧ y ∈ canonical_lead_sources
       ∧ (∀ s, x = Some s → s ∈ ALLOWED_LEAD_SOURCES → y = s)
       ∧ ((∀ s, x = Some s → s ∉ ALLOWED_LEAD_SOURCES) → y = "Other")
       ∧ (∀ s, x = Some s → s ∈ canonical_lead_sources → y = s)
       ∧ ((∀ s, x = Some s → s ∉ canonical_lead_sources) → y = "Other").
Proof.
  intros Hi. exists (remap_one x).
  unfold remap_lead_source. rewrite list_lookup_fmap, Hi. cbn [fmap option_fmap option_map].
  split; [reflexivity|].
  destruct x as [s|]; cbn [remap_one].
  - destruct (str_in s ALLOWED_LEAD_SOURCES) eqn:Hin.
    + apply str_in_true in Hin.
      split; [apply elem_of_canonical; by left|].
      split; [by intros ? [= ->]|].
      split; [intros Hno; by destruct (Hno s eq_refl)|].
      split; [by intros ? [= ->]|].
      intros Hno. exfalso. apply (Hno s eq_refl).
      apply elem_of_canonical. by left.
    + apply str_in_false in Hin.
      split; [apply elem_of_canonical; by right|].
      split; [by intros s' [= <-] Hs|].
      split; [reflexivity|].
      split; [|reflexivity].
      intros s' [= <-] [Hs| ->]%elem_of_canonical; [done|reflexivity].
  - split; [apply elem_of_canonical; by right|].
    repeat split; (reflexivity || by intros ? [=]).
Qed.

Lemma remap_lead_source_canonical_witness :
  ∃ y, remap_lead_source
         [Some "Website"; None; Some "Partner Event"; Some "website"] !! 3
       = Some y
       ∧ y ∈ canonical_lead_sources
       ∧ (∀ s, Some "website" = Some s → s ∈ ALLOWED_LEAD_SOURCES → y = s)
       ∧ ((∀ s, Some "website" = Some s → s ∉ ALLOWED_LEAD_SOURCES)
          → y = "Other")
       ∧ (∀ s, Some "website" = Some s → s ∈ canonical_lead_sources → y = s)
       ∧ ((∀ s, Some "website" = Some s → s ∉ canonical_lead_sources)
          → y = "Other").
Proof.
  apply (remap_lead_source_canonical
           [Some "Website"; None; Some "Partner Event"; Some "website"] 3
           (Some "website")).
  reflexivity.
Defined.

(** C6: the three fields are tried in the order State,
    Lead_State_Province__c, Street and the first match is the result: a
    State that resolves decides the result whatever the other two fields
    hold (so State "CA" or "ca" gives "CA"), and a State that does not
    match with Lead_State_Province__c "Texas" gives "TX". *)
Theorem determine_state_priority (r : Raw.row) :
  (∀ code, match_value (Raw.State r) = Some code →
           determine_state r = Some code)
  ∧ (match_value (Raw.State r) = None →
     ∀ code, match_value (Raw.Lead_State_Province__c r) = Some code →
             determine_state r = Some code)
  ∧ (match_value (Raw.State r) = None →
     match_value (Raw.Lead_State_Province__c r) = None →
     determine_state r = match_value (Raw.Street r))
  ∧ (Raw.State r = Some "CA" ∨ Raw.State r = Some "ca" →
     determine_state r = Some "CA")
  ∧ (match_value (Raw.State r) = None →
     Raw.Lead_State_Province__c r = Some "Texas" →
     determine_state r = Some "TX").
Proof.
  rewrite determine_state_unfold. repeat split.
  - intros code ->. reflexivity.
  - intros -> code ->. reflexivity.
  - intros -> ->. reflexivity.
  - intros [-> | ->]; reflexivity.
  - intros -> ->. reflexivity.
Qed.

Lemma determine_state_priority_witness :
  determine_state
    (example_row (Some "ca") (Some "Texas") (Some "1 Main St, Reno, NV")
                 None None) = Some "CA"
  ∧ determine_state
      (example_row (Some "") (Some "Texas") (Some "NY") None None)
    = Some "TX".
Proof.
  split.
  - apply (determine_state_priority
             (example_row (Some "ca") (Some "Texas")
                          (Some "1 Main St, Reno, NV") None None)).
    right. reflexivity.
  - apply (determine_state_priority
             (example_row (Some "") (Some "Texas") (Some "NY") None None));
      reflexivity.
Defined.

(** C10: a field matches only when its whole trimmed value is an
    abbreviation once upper-cased or a full state name once title-cased;
    the result of [determine_state] always comes from such a field, and a
    record whose only hint is a Street such as "123 Main St, Austin, TX"
    does not resolve and is left out of the processed frame. *)
Theorem determine_state_whole_value (r : Raw.row) :
  (∀ code, determine_state r = Some code →
     ∃ field s,
       field ∈ ["State"; "Lead_State_Province__c"; "Street"]
       ∧ Raw.get r field (Some "") = Some s
       ∧ ((PyStr.upper (PyStr.strip s) = code ∧ code ∈ STATE_ABBREVIATIONS)
          ∨ (PyStr.title (PyStr.strip s) ∈ FULL_STATE_NAMES
             ∧ (code, PyStr.title (PyStr.strip s)) ∈ STATE_ABBR_TO_NAME)))
  ∧ (match_value (Raw.State r) = None →
     match_value (Raw.Lead_State_Province__c r) = None →
     Raw.Street r = Some "123 Main St, Austin, TX" →
     determine_state r = None
     ∧ ∀ records, assign_columns r ∉ process_lead_records records).
Proof.
  split.
  - intros code. rewrite determine_state_unfold.
    destruct (match_value (Raw.State r)) as [c1|] eqn:H1.
    { intros [= ->]. apply match_value_Some in H1 as (s & Hs & Hm).
      exists "State", s. rewrite get_State.
      split; [by apply str_in_true|]. split; [done|].
      destruct Hm as [Hm|(_ & Hm)]; [by left|by right]. }
    destruct (match_value (Raw.Lead_State_Province__c r)) as [c2|] eqn:H2.
    { intros [= ->]. apply match_value_Some in H2 as (s & Hs & Hm).
      exists "Lead_State_Province__c", s. rewrite get_Lead_State_Province__c.
      split; [by apply str_in_true|]. split; [done|].
      destruct Hm as [Hm|(_ & Hm)]; [by left|by right]. }
    intros H3. apply match_value_Some in H3 as (s & Hs & Hm).
    exists "Street", s. rewrite get_Street.
    split; [by apply str_in_true|]. split; [done|].
      destruct Hm as [Hm|(_ & Hm)]; [by left|by right].
  - intros H1 H2 H3.
    assert (determine_state r = None) as Hnone.
    { rewrite determine_state_unfold, H1, H2, H3. reflexivity. }
    split; [exact Hnone|].
    intros records Hin.
    apply elem_of_process_lead_records in Hin as (r' & _ & Heq & Hst).
    apply (f_equal LeadState) in Heq. cbn [LeadState assign_columns] in Heq.
    rewrite Hnone in Heq. rewrite <- Heq in Hst. by destruct Hst.
Qed.

Lemma determine_state_whole_value_witness :
  (∃ field s,
     field ∈ ["State"; "Lead_State_Province__c"; "Street"]
     ∧ Raw.get (example_row (Some "n/a") None (Some " new york ") None None)
               field (Some "") = Some s
     ∧ ((PyStr.upper (PyStr.strip s) = "NY" ∧ "NY" ∈ STATE_ABBREVIATIONS)
        ∨ (PyStr.title (PyStr.strip s) ∈ FULL_STATE_NAMES
           ∧ ("NY", PyStr.title (PyStr.strip s)) ∈ STATE_ABBR_TO_NAME)))
  ∧ determine_state
      (example_row (Some "") (Some "")
                   (Some "123 Main St, Austin, TX") None None) = None.
Proof.
  split.
  - apply (determine_state_whole_value
             (example_row (Some "n/a") None (Some " new york ") None None)).
    reflexivity.
  - apply (determine_state_whole_value
             (example_row (Some "") (Some "")
                          (Some "123 Main St, Austin, TX") None None));
      reflexivity.
Defined.

(** C3: evaluation of the state resolution on a record whose State is
    "DC": the abbreviations are the fifty keys of [STATE_CENTROIDS], "DC"
    is not one of them, so the record does not resolve and is left out of
    the processed frame, although "DC" has a name in
    [STATE_ABBR_TO_NAME] and the full name "Washington D.C." resolves to
    "DC". *)
Theorem determine_state_DC_unresolved :
  length STATE_ABBREVIATIONS = 50
  ∧ ("DC" ∉ STATE_ABBREVIATIONS)
  ∧ ("DC", "Washington D.C.") ∈ STATE_ABBR_TO_NAME
  ∧ determine_state (example_row (Some "DC") None None None None) = None
  ∧ process_lead_records [example_row (Some "DC") None None None None] = []
  ∧ determine_state
      (example_row (Some "Washington D.C.") None None None None)
    = Some "DC".
Proof.
  split; [reflexivity|].
  split; [by apply str_in_false|].
  split; [apply (proj1 (bool_decide_eq_true _)); reflexivity|].
  repeat split; reflexivity.
Qed.

(** C7: the processed frame holds exactly the records whose state
    resolves, each with its resolved state; a record none of whose three
    fields matches is not in it; and its size plus the number of dropped
    records is the size of the raw set.  For a non-empty raw set this frame
    is what [fetch_and_process_lead_data] stores. *)
Theorem canonical_set_exact (records : list Raw.row) :
  (∀ l, l ∈ process_lead_records records ↔
        ∃ r, r ∈ records ∧ l = assign_columns r
             ∧ is_Some (determine_state r))
  ∧ (∀ l, l ∈ process_lead_records records → is_Some (LeadState l))
  ∧ (∀ r, match_value (Raw.State r) = None →
          match_value (Raw.Lead_State_Province__c r) = None →
          match_value (Raw.Street r) = None →
          assign_columns r ∉ process_lead_records records)
  ∧ length (process_lead_records records) + dropped_count records
    = length records
  ∧ (records ≠ [] →
     fetch_and_process_lead_data None records
     = Some (process_lead_records records)).
Proof.
  split; [apply elem_of_process_lead_records|].
  split.
  { intros l (r & _ & -> & Hst)%elem_of_process_lead_records. exact Hst. }
  split.
  { intros r H1 H2 H3 (r' & _ & Heq & Hst)%elem_of_process_lead_records.
    apply (f_equal LeadState) in Heq. cbn [LeadState assign_columns] in Heq.
    rewrite determine_state_unfold, H1, H2, H3 in Heq.
    rewrite <- Heq in Hst. by destruct Hst. }
  split; [apply process_lead_records_length|].
  intros Hne. unfold fetch_and_process_lead_data.
  destruct records; [done|]. reflexivity.
Qed.

Lemma canonical_set_exact_witness :
  (assign_columns (example_row (Some "") (Some "") (Some "123 Main")
                               (Some "Bing") (Some "Closed"))
     ∉ process_lead_records
         [ example_row (Some "ca") None None (Some "Website") (Some "New");
           example_row (Some "Texas") None None (Some "Indeed") (Some "New");
           example_row (Some "") (Some "") (Some "123 Main")
                       (Some "Bing") (Some "Closed") ])
  ∧ fetch_and_process_lead_data None
      [ example_row (Some "ca") None None (Some "Website") (Some "New");
        example_row (Some "Texas") None None (Some "Indeed") (Some "New");
        example_row (Some "") (Some "") (Some "123 Main")
                    (Some "Bing") (Some "Closed") ]
    = Some (process_lead_records
      [ example_row (Some "ca") None None (Some "Website") (Some "New");
        example_row (Some "Texas") None None (Some "Indeed") (Some "New");
        example_row (Some "") (Some "") (Some "123 Main")
                    (Some "Bing") (Some "Closed") ]).
Proof.
  split.
  - apply (canonical_set_exact
      [ example_row (Some "ca") None None (Some "Website") (Some "New");
        example_row (Some "Texas") None None (Some "Indeed") (Some "New");
        example_row (Some "") (Some "") (Some "123 Main")
                    (Some "Bing") (Some "Closed") ]); reflexivity.
  - apply (canonical_set_exact
      [ example_row (Some "ca") None None (Some "Website") (Some "New");
        example_row (Some "Texas") None None (Some "Indeed") (Some "New");
        example_row (Some "") (Some "") (Some "123 Main")
                    (Some "Bing") (Some "Closed") ]). discriminate.
Defined.

(** * Filter state *)

Lemma widget_key_inj d d' : widget_key d = widget_key d' → d = d'.
Proof. destruct d, d'; (reflexivity || discriminate). Qed.

(** Each callback writes the reconciled selection under its own key. *)
Lemma on_change_reconcile d (ss : session) selected :
  ss !! widget_key d = Some selected →
  on_change d ss = Some (<[widget_key d := reconcile selected]> ss).
Proof.
  intros Hsel.
  assert (<[widget_key d := selected]> ss = ss) as Hid
    by (by apply insert_id).
  destruct d; cbn [on_change widget_key] in *;
    unfold update_year, update_owner, update_lead_source,
      update_lead_status, update_product, reconcile;
    rewrite Hsel; cbn [mbind option_bind];
    repeat case_match; congruence.
Qed.

Lemma multiselect_change_reconcile d (ss : session) value :
  multiselect_change d value ss
  = Some (<[widget_key d := reconcile value]> ss).
Proof.
  unfold multiselect_change.
  rewrite (on_change_reconcile d _ value) by apply lookup_insert_eq.
  by rewrite insert_insert_eq.
Qed.

Lemma filter_all {A} (P : A → Prop) `{!∀ x, Decision (P x)} (l : list A) :
  Forall P l → filter P l = l.
Proof.
  induction 1 as [|x l Hx _ IH]; [reflexivity|].
  by rewrite filter_cons, decide_True, IH.
Qed.

Lemma reconcile_empty : reconcile [] = ["All"].
Proof. reflexivity. Qed.

(** With ["All"] among several values, the sentinel is dropped and the
    concrete values stay, in their order. *)
Lemma reconcile_drop_All (l1 l2 : list string) :
  l1 ++ l2 ≠ [] → "All" ∉ l1 ++ l2 →
  reconcile (l1 ++ "All" :: l2) = l1 ++ l2.
Proof.
  intros Hne Hnot. unfold reconcile.
  assert ("All" ∈ l1 ++ "All" :: l2) as Hin
    by (apply elem_of_app; right; left).
  apply str_in_true in Hin. rewrite Hin.
  assert (1 < length (l1 ++ "All" :: l2)) as Hlen.
  { rewrite length_app. cbn [length].
    destruct l1, l2; cbn [length app] in *; try lia. done. }
  apply Nat.ltb_lt in Hlen. rewrite Hlen.
  rewrite filter_app, filter_cons, decide_False by (intros Hn; by apply Hn).
  rewrite not_elem_of_app in Hnot. destruct Hnot as [Hn1 Hn2].
  f_equal; apply filter_all, Forall_forall; intros x Hx ->; done.
Qed.

Lemma reconcile_ok (value : list string) :
  NoDup value → selection_ok (reconcile value).
Proof.
  intros Hnd. unfold reconcile, selection_ok.
  destruct (str_in "All" value) eqn:Hin.
  - apply str_in_true in Hin.
    destruct (1 <? length value) eqn:Hlen.
    + right. split.
      * destruct value as [|x [|y rest]]; cbn in Hlen; try discriminate.
        apply NoDup_cons in Hnd as [Hxy _].
        assert (x ≠ y) as Hne by (intros ->; apply Hxy; left).
        destruct (decide (x = "All")) as [->|Hx].
        -- intros Hnil.
           assert (y ∈ filter (λ value, value ≠ "All") ("All" :: y :: rest))
             as Hy by (apply list_elem_of_filter; split; [congruence|right; left]).
           rewrite Hnil in Hy. by apply elem_of_nil in Hy.
        -- intros Hnil.
           assert (x ∈ filter (λ value, value ≠ "All") (x :: y :: rest))
             as Hy by (apply list_elem_of_filter; split; [done|left]).
           rewrite Hnil in Hy. by apply elem_of_nil in Hy.
      * intros [Hne _]%list_elem_of_filter. by apply Hne.
    + left. apply Nat.ltb_ge in Hlen.
      destruct value as [|x [|y rest]]; cbn in Hlen;
        [by apply elem_of_nil in Hin| |lia].
      apply list_elem_of_singleton in Hin. by rewrite Hin.
  - apply str_in_false in Hin. case_bool_decide as Hnil.
    + by left.
    + by right.
Qed.

(** The invariant needs the distinct options a multiselect submits: with
    "All" twice the callback would leave an empty selection. *)
Remark reconcile_duplicate_All : reconcile ["All"; "All"] = [].
Proof. reflexivity. Qed.

Lemma initial_session_lookup d :
  initial_session !! widget_key d = Some ["All"].
Proof. destruct d; reflexivity. Qed.

(** The invariant of the session state. *)
Lemma reachable_selection_ok (ss : session) :
  reachable ss →
  ∀ d, ∃ selected, ss !! widget_key d = Some selected ∧ selection_ok selected.
Proof.
  induction 1 as [|ss d value ss' _ IH Hnd Hstep]; intros d'.
  - exists ["All"]. split; [apply initial_session_lookup|by left].
  - rewrite multiselect_change_reconcile in Hstep. injection Hstep as <-.
    destruct (decide (d = d')) as [<-|Hne].
    + exists (reconcile value). rewrite lookup_insert_eq.
      split; [reflexivity|by apply reconcile_ok].
    + rewrite lookup_insert_ne; [apply IH|].
      intros Heq. by apply Hne, widget_key_inj.
Qed.

(** C4: in every reachable session state each of the five selections is
    either ["All"] alone or a non-empty list without "All"; every edit is
    reconciled into such a state again, an empty submitted selection
    becomes ["All"], and the other selections are left as they are. *)
Theorem selections_invariant (ss : session) :
  reachable ss →
  (∀ d, ∃ selected,
      ss !! widget_key d = Some selected ∧ selection_ok selected)
  ∧ (∀ d value, NoDup value →
       ∃ ss', multiselect_change d value ss = Some ss'
              ∧ reachable ss'
              ∧ (∃ selected, ss' !! widget_key d = Some selected
                             ∧ selection_ok selected
                             ∧ (value = [] → selected = ["All"]))
              ∧ (∀ d', d' ≠ d →
                   ss' !! widget_key d' = ss !! widget_key d')).
Proof.
  intros Hreach. split; [by apply reachable_selection_ok|].
  intros d value Hnd.
  exists (<[widget_key d := reconcile value]> ss).
  pose proof (multiselect_change_reconcile d ss value) as Hstep.
  split; [exact Hstep|].
  split; [by eapply reachable_edit|].
  split.
  - exists (reconcile value). rewrite lookup_insert_eq.
    split; [reflexivity|]. split; [by apply reconcile_ok|].
    intros ->. apply reconcile_empty.
  - intros d' Hne. apply lookup_insert_ne.
    intros Heq. by apply Hne, eq_sym, widget_key_inj.
Qed.

Lemma selections_invariant_witness :
  reachable session_2024
  ∧ (∀ d, ∃ selected,
        session_2024 !! widget_key d = Some selected ∧ selection_ok selected)
  ∧ (∀ d value, NoDup value →
       ∃ ss', multiselect_change d value session_2024 = Some ss'
              ∧ reachable ss'
              ∧ (∃ selected, ss' !! widget_key d = Some selected
                             ∧ selection_ok selected
                             ∧ (value = [] → selected = ["All"]))
              ∧ (∀ d', d' ≠ d →
                   ss' !! widget_key d' = session_2024 !! widget_key d')).
Proof.
  assert (reachable session_2024) as Hreach.
  { apply (reachable_edit initial_session Year ["All"; "2024"]).
    - apply reachable_initial.
    - apply (bool_decide_unpack _). vm_compute. exact I.
    - exact (multiselect_change_reconcile Year initial_session
               ["All"; "2024"]). }
  split; [exact Hreach|].
  apply (selections_invariant session_2024 Hreach).
Defined.

(** C1 (counterexample): with the year selection ["2024"], submitting
    ["2024"; "All"] leaves ["2024"], not ["All"]. *)
Lemma add_All_to_subset_counterexample :
  session_2024 !! "year_selection" = Some ["2024"]
  ∧ ∃ ss', multiselect_change Year ["2024"; "All"] session_2024 = Some ss'
           ∧ ss' !! "year_selection" = Some ["2024"]
           ∧ ss' !! "year_selection" ≠ Some ["All"].
Proof.
  split; [reflexivity|].
  eexists. split; [apply multiselect_change_reconcile|].
  cbn [widget_key]. rewrite lookup_insert_eq.
  split; [reflexivity|discriminate].
Qed.

(** C1 (amended): when the selection of a dimension is a non-empty list of
    concrete values and the edit adds "All" to them, the callback drops
    "All" again and the selection stays that list of concrete values. *)
Theorem add_All_to_subset_keeps_subset
    (d : dimension) (ss : session) (l1 l2 : list string) :
  ss !! widget_key d = Some (l1 ++ l2) →
  l1 ++ l2 ≠ [] →
  "All" ∉ l1 ++ l2 →
  ∃ ss', multiselect_change d (l1 ++ "All" :: l2) ss = Some ss'
         ∧ ss' !! widget_key d = Some (l1 ++ l2)
         ∧ ss' !! widget_key d ≠ Some ["All"]
         ∧ ss' = ss.
Proof.
  intros Hprev Hne Hnot.
  exists (<[widget_key d := reconcile (l1 ++ "All" :: l2)]> ss).
  split; [apply multiselect_change_reconcile|].
  rewrite reconcile_drop_All by done. rewrite lookup_insert_eq.
  split; [reflexivity|]. split.
  - intros [= Heq]. apply Hnot. rewrite Heq. left.
  - by apply insert_id.
Qed.

Lemma add_All_to_subset_keeps_subset_witness :
  ∃ ss', multiselect_change Owner (["Ann"] ++ "All" :: ["Bob"])
           (<["owner_selection" := ["Ann"; "Bob"]]> initial_session)
         = Some ss'
         ∧ ss' !! widget_key Owner = Some (["Ann"] ++ ["Bob"])
         ∧ ss' !! widget_key Owner ≠ Some ["All"]
         ∧ ss' = <["owner_selection" := ["Ann"; "Bob"]]> initial_session.
Proof.
  apply (add_All_to_subset_keeps_subset Owner
           (<["owner_selection" := ["Ann"; "Bob"]]> initial_session)
           ["Ann"] ["Bob"]).
  - vm_compute. reflexivity.
  - discriminate.
  - apply (bool_decide_unpack _). vm_compute. exact I.
Defined.

(** * Filter evaluator *)

Lemma date_gtb_negb_leb d1 d2 : date_gtb d1 d2 = negb (date_leb d1 d2).
Proof.
  unfold date_gtb, date_leb.
  destruct d1 as [y1 m1 dd1], d2 as [y2 m2 dd2]; cbn [Raw.year Raw.month Raw.day].
  destruct (Z.ltb_spec y1 y2), (Z.ltb_spec y2 y1), (Z.eqb_spec y1 y2),
    (Z.eqb_spec y2 y1), (Z.ltb_spec m1 m2), (Z.ltb_spec m2 m1),
    (Z.eqb_spec m1 m2), (Z.eqb_spec m2 m1), (Z.leb_spec dd1 dd2),
    (Z.ltb_spec dd2 dd1); cbn [orb andb negb]; (reflexivity || lia).
Qed.

Lemma isin_passes selection cell :
  ¬ "All" ∈ selection →
  (isin cell selection ↔ passes selection cell).
Proof.
  intros Hall. unfold passes, isin. destruct cell as [s|].
  - unfold str_in. rewrite bool_decide_spec. split.
    + intros Hs. right. eauto.
    + intros [?|(s' & [= <-] & Hs)]; done.
  - split; [done|]. intros [?|(s' & [=] & _)]. done.
Qed.

Lemma elem_of_selection_filter (f : lead → option string)
    (selection : list string) (df : list lead) (r : lead) :
  r ∈ (if negb (str_in "All" selection)
       then filter (λ r, isin (f r) selection) df else df)
  ↔ r ∈ df ∧ passes selection (f r).
Proof.
  destruct (str_in "All" selection) eqn:Hall; cbn [negb].
  - apply str_in_true in Hall. unfold passes. tauto.
  - apply str_in_false in Hall.
    rewrite list_elem_of_filter, isin_passes by done. tauto.
Qed.

Lemma elem_of_year_filter int (ss : session) df r :
  r ∈ snd (year_filter int ss df)
  ↔ r ∈ df
    ∧ year_passes int (ss !!! "year_selection") (Raw.year (CreatedDate r)).
Proof.
  unfold year_filter, year_passes.
  destruct (str_in "All" (ss !!! "year_selection")) eqn:Hall; cbn [negb].
  - apply str_in_true in Hall. cbn [snd]. tauto.
  - apply str_in_false in Hall.
    destruct (mapM int (ss !!! "year_selection")) as [years|]; cbn [snd].
    + rewrite list_elem_of_filter. split.
      * intros [Hy Hr]. split; [done|]. right. right. eauto.
      * intros [Hr [?|[?|(years' & [= <-] & Hy)]]]; done.
    + split; [auto|tauto].
Qed.

Lemma elem_of_apply_dimension_filters int (ss : session) df r :
  r ∈ apply_dimension_filters int ss df
  ↔ r ∈ df
    ∧ year_passes int (ss !!! "year_selection") (Raw.year (CreatedDate r))
    ∧ passes (ss !!! "owner_selection") (OwnerName r)
    ∧ passes (ss !!! "lead_source_selection") (Some (LeadSource r))
    ∧ passes (ss !!! "lead_status_selection") (Status r)
    ∧ passes (ss !!! "product_selection") (Product__c r).
Proof.
  unfold apply_dimension_filters, product_filter, lead_status_filter,
    lead_source_filter, owner_filter.
  rewrite (elem_of_selection_filter Product__c).
  rewrite (elem_of_selection_filter Status).
  rewrite (elem_of_selection_filter (λ r, Some (LeadSource r))).
  rewrite (elem_of_selection_filter OwnerName).
  rewrite elem_of_year_filter. tauto.
Qed.

Lemma init_selection_lookup key (ss : session) key' :
  init_selection key ss !! key'
  = if decide (key' = key) then Some (default ["All"] (ss !! key'))
    else ss !! key'.
Proof.
  unfold init_selection. destruct (decide (key' = key)) as [->|Hne].
  - destruct (ss !! key) eqn:Hk; [by rewrite Hk|by rewrite lookup_insert_eq].
  - destruct (ss !! key); [reflexivity|by rewrite lookup_insert_ne].
Qed.

Lemma init_selections_lookup keys (ss : session) key :
  init_selections keys ss !! key
  = if decide (key ∈ keys) then Some (default ["All"] (ss !! key))
    else ss !! key.
Proof.
  unfold init_selections. revert ss.
  induction keys as [|k keys IH]; intros ss; cbn [foldl].
  { rewrite decide_False by apply not_elem_of_nil. reflexivity. }
  rewrite IH, init_selection_lookup.
  destruct (decide (key = k)) as [->|Hne].
  - rewrite (decide_True (P := k ∈ k :: keys)) by left.
    by destruct (decide (k ∈ keys)).
  - destruct (decide (key ∈ keys)) as [Hin|Hout].
    + by rewrite decide_True by (by right).
    + rewrite decide_False; [reflexivity|].
      by intros [?|?]%elem_of_cons.
Qed.

Lemma filtering_section_session_after int df ss date_from date_to a b c :
  session_after (filtering_section int df ss date_from date_to a b c)
  = init_selections
      [ "year_selection"; "owner_selection"; "lead_source_selection";
        "lead_status_selection"; "product_selection" ] ss.
Proof.
  unfold filtering_section.
  destruct (year_filter int _ df); reflexivity.
Qed.

Lemma filtering_section_df_filtered int df ss date_from date_to a b c :
  df_filtered (filtering_section int df ss date_from date_to a b c)
  = date_range_filter date_from date_to
      (apply_dimension_filters int
         (session_after (filtering_section int df ss date_from date_to a b c))
         df).
Proof.
  rewrite filtering_section_session_after.
  unfold filtering_section, apply_dimension_filters.
  destruct (year_filter int _ df); reflexivity.
Qed.

Lemma filtering_section_sidebar int df ss date_from date_to a b c :
  sidebar_error invalid_range_message
    ∈ sidebar (filtering_section int df ss date_from date_to a b c)
  ↔ date_gtb date_from date_to = true.
Proof.
  unfold filtering_section.
  destruct (year_filter int _ df) as [year_events df'] eqn:Hy.
  cbn [sidebar].
  assert (sidebar_error invalid_range_message ∉ year_events) as Hyear.
  { unfold year_filter in Hy. repeat case_match; injection Hy as <- <-.
    - apply not_elem_of_nil.
    - intros [=]%list_elem_of_singleton.
    - apply not_elem_of_nil. }
  rewrite !elem_of_app, list_elem_of_singleton.
  destruct (date_gtb date_from date_to).
  - rewrite list_elem_of_singleton. tauto.
  - rewrite elem_of_nil. split; [|done].
    intros [[]|[?|[=]]]. done.
Qed.

(** C8: [filtering_section] filters by the selections of the session
    state it is given, each of its five keys read as stored, or as ["All"]
    where the state stores none, and leaves the state so initialised.  When
    the From date is after the To date it writes the error to the sidebar
    and its result is the frame filtered by these five selections alone, no
    date predicate applied: it keeps exactly the leads of the frame that
    pass all five.  When From is not after To, no such error is written and
    the result keeps exactly the leads that pass all five and were created
    from From to To, both included. *)
Theorem date_range_applied_only_when_valid
    (int : string → option Z) (df : list lead) (ss : session)
    (date_from date_to : Raw.date) (a b c : bool) :
  let res := filtering_section int df ss date_from date_to a b c in
  let given key := default ["All"] (ss !! key) in
  let dimensions_pass r :=
    year_passes int (given "year_selection") (Raw.year (CreatedDate r))
    ∧ passes (given "owner_selection") (OwnerName r)
    ∧ passes (given "lead_source_selection") (Some (LeadSource r))
    ∧ passes (given "lead_status_selection") (Status r)
    ∧ passes (given "product_selection") (Product__c r) in
  let selected :=
    apply_dimension_filters int (init_selections filtering_keys ss) df in
  session_after res = init_selections filtering_keys ss
  ∧ (∀ key, key ∈ filtering_keys → session_after res !!! key = given key)
  ∧ (∀ r, r ∈ selected ↔ r ∈ df ∧ dimensions_pass r)
  ∧ (date_gtb date_from date_to = true →
       sidebar_error invalid_range_message ∈ sidebar res
       ∧ df_filtered res = selected
       ∧ ∀ r, r ∈ df_filtered res ↔ r ∈ df ∧ dimensions_pass r)
  ∧ (date_leb date_from date_to = true →
       (sidebar_error invalid_range_message ∉ sidebar res)
       ∧ df_filtered res
         = filter (λ r, date_leb date_from (CreatedDate r)
                        && date_leb (CreatedDate r) date_to) selected
       ∧ ∀ r, r ∈ df_filtered res ↔
              r ∈ df
              ∧ dimensions_pass r
              ∧ date_leb date_from (CreatedDate r) = true
              ∧ date_leb (CreatedDate r) date_to = true)
  ∧ (date_gtb date_from date_to = true
     ↔ date_leb date_from date_to = false).
Proof.
  intros res given dimensions_pass selected.
  pose proof (filtering_section_session_after int df ss date_from date_to
                a b c) as Hss.
  fold filtering_keys in Hss. fold res in Hss.
  assert (∀ key, key ∈ filtering_keys →
                 init_selections filtering_keys ss !!! key = given key)
    as Hgiven.
  { intros key Hkey. rewrite lookup_total_alt, init_selections_lookup.
    by rewrite decide_True. }
  assert (∀ r, r ∈ selected ↔ r ∈ df ∧ dimensions_pass r) as Hsel.
  { intros r. unfold selected, dimensions_pass.
    rewrite elem_of_apply_dimension_filters.
    rewrite !Hgiven by (apply (bool_decide_unpack _); vm_compute; exact I).
    reflexivity. }
  pose proof (filtering_section_df_filtered int df ss date_from date_to a b c)
    as Hdf.
  pose proof (filtering_section_sidebar int df ss date_from date_to a b c)
    as Hside.
  fold res in Hdf, Hside. rewrite Hss in Hdf. fold selected in Hdf.
  pose proof (date_gtb_negb_leb date_from date_to) as Hneg.
  split; [exact Hss|].
  split; [intros key Hkey; rewrite Hss; by apply Hgiven|].
  split; [exact Hsel|].
  split; [|split].
  - intros Hgt.
    rewrite Hgt in Hneg. apply eq_sym, negb_true_iff in Hneg.
    assert (df_filtered res = selected) as Heq
      by (rewrite Hdf; unfold date_range_filter; by rewrite Hneg).
    split; [by apply Hside|]. split; [exact Heq|].
    intros r. rewrite Heq. apply Hsel.
  - intros Hle. rewrite Hle in Hneg. cbn [negb] in Hneg.
    split; [rewrite Hside, Hneg; discriminate|].
    assert (df_filtered res
            = filter (λ r, date_leb date_from (CreatedDate r)
                           && date_leb (CreatedDate r) date_to) selected)
      as Heq by (rewrite Hdf; unfold date_range_filter; by rewrite Hle).
    split; [exact Heq|].
    intros r. rewrite Heq, list_elem_of_filter, Hsel.
    rewrite andb_True, !Is_true_true. tauto.
  - rewrite Hneg, negb_true_iff. reflexivity.
Qed.

Lemma date_range_applied_only_when_valid_witness :
  (sidebar_error invalid_range_message
     ∈ sidebar (filtering_section int_of_digits example_frame
                  (<["owner_selection" := ["Ann"]]> initial_session)
                  (example_date 2024 3 1) (example_date 2024 1 20)
                  true true true)
   ∧ df_filtered (filtering_section int_of_digits example_frame
                    (<["owner_selection" := ["Ann"]]> initial_session)
                    (example_date 2024 3 1) (example_date 2024 1 20)
                    true true true)
     = apply_dimension_filters int_of_digits
         (init_selections filtering_keys
            (<["owner_selection" := ["Ann"]]> initial_session))
         example_frame
   ∧ (λ r : lead, Raw.Id (raw r))
       <$> df_filtered (filtering_section int_of_digits example_frame
                          (<["owner_selection" := ["Ann"]]> initial_session)
                          (example_date 2024 3 1) (example_date 2024 1 20)
                          true true true)
     = ["00Q1"; "00Q3"])
  ∧ (sidebar_error invalid_range_message
       ∉ sidebar (filtering_section int_of_digits example_frame
                    (<["year_selection" := ["2024"]]> initial_session)
                    (example_date 2024 2 1) (example_date 2024 3 5)
                    true true true))
  ∧ (λ r : lead, Raw.Id (raw r))
      <$> df_filtered (filtering_section int_of_digits example_frame
                         (<["year_selection" := ["2024"]]> initial_session)
                         (example_date 2024 2 1) (example_date 2024 3 5)
                         true true true)
    = ["00Q2"; "00Q3"].
Proof.
  pose proof (date_range_applied_only_when_valid int_of_digits example_frame
                (<["owner_selection" := ["Ann"]]> initial_session)
                (example_date 2024 3 1) (example_date 2024 1 20)
                true true true) as Hinvalid.
  pose proof (date_range_applied_only_when_valid int_of_digits example_frame
                (<["year_selection" := ["2024"]]> initial_session)
                (example_date 2024 2 1) (example_date 2024 3 5)
                true true true) as Hvalid.
  cbv zeta in Hinvalid, Hvalid.
  destruct Hinvalid as (_ & _ & _ & Hinvalid & _).
  destruct Hvalid as (_ & _ & _ & _ & Hvalid & _).
  specialize (Hinvalid eq_refl) as (Herror & Heq & _).
  specialize (Hvalid eq_refl) as (Hnoerror & Heq' & _).
  split; [split; [exact Herror|split; [exact Heq|]]|split; [exact Hnoerror|]].
  - rewrite Heq. vm_compute. reflexivity.
  - rewrite Heq'. vm_compute. reflexivity.
Defined.

(** * Aggregator *)

Section Grouping_facts.

Context `{Countable K}.

Lemma group_size_lookup (keys : list (option K)) (k : K) :
  group_size keys !! k
  = match occurrences k keys with 0 => None | S n => Some (S n) end.
Proof.
  unfold occurrences.
  induction keys as [|x keys IH]; [apply lookup_empty|].
  cbn [group_size foldr]. fold (group_size keys).
  rewrite filter_cons.
  destruct x as [k'|]; cbn [count_key].
  - destruct (decide (k' = k)) as [->|Hne].
    + rewrite lookup_insert_eq, IH, decide_True by reflexivity.
      cbn [length]. by destruct (length _).
    + rewrite lookup_insert_ne by done.
      rewrite decide_False by congruence. exact IH.
  - rewrite decide_False by discriminate. exact IH.
Qed.

Lemma group_size_count (keys : list (option K)) (k : K) :
  default 0 (group_size keys !! k) = occurrences k keys.
Proof. rewrite group_size_lookup. by destruct (occurrences k keys). Qed.

Lemma sum_counts_empty : sum_counts (∅ : gmap K nat) = 0.
Proof. unfold sum_counts. apply map_fold_empty. Qed.

Lemma sum_counts_insert_fresh (m : gmap K nat) k v :
  m !! k = None → sum_counts (<[k := v]> m) = v + sum_counts m.
Proof.
  intros Hk. unfold sum_counts.
  rewrite map_fold_insert_L; [reflexivity| |exact Hk].
  intros. lia.
Qed.

Lemma sum_counts_insert (m : gmap K nat) k v :
  sum_counts (<[k := v]> m) + default 0 (m !! k) = v + sum_counts m.
Proof.
  destruct (m !! k) as [x|] eqn:Hk; cbn [default from_option id].
  - assert (sum_counts m = x + sum_counts (delete k m)) as Hm.
    { rewrite <- (insert_delete_id m k x) at 1 by done.
      apply sum_counts_insert_fresh, lookup_delete_eq. }
    assert (sum_counts (<[k := v]> m) = v + sum_counts (delete k m)) as Hv.
    { rewrite <- insert_delete_eq.
      apply sum_counts_insert_fresh, lookup_delete_eq. }
    lia.
  - rewrite sum_counts_insert_fresh by done. lia.
Qed.

(** The counts of the groups add up to the number of rows that have a
    key. *)
Lemma sum_counts_group_size (keys : list (option K)) :
  sum_counts (group_size keys) = length (filter is_Some keys).
Proof.
  induction keys as [|x keys IH]; [apply sum_counts_empty|].
  cbn [group_size foldr]. fold (group_size keys).
  rewrite filter_cons. destruct x as [k|]; cbn [count_key].
  - rewrite decide_True by eauto. cbn [length].
    pose proof (sum_counts_insert (group_size keys) k
                  (S (default 0 (group_size keys !! k)))) as Hins.
    lia.
  - rewrite decide_False by (intros [? ?]; discriminate). exact IH.
Qed.

End Grouping_facts.

Lemma filter_is_Some_fmap {A B} (f : A → option B) (l : list A) :
  length (filter is_Some (f <$> l)) = length (filter (λ x, is_Some (f x)) l).
Proof.
  induction l as [|x l IH]; [reflexivity|].
  cbn [fmap list_fmap]. rewrite !filter_cons.
  destruct (decide (is_Some (f x))); cbn [length]; by rewrite IH.
Qed.

(** C9 (counterexample): for a frame of one lead that has no status, the
    status counts add up to 0 while the frame has one row. *)
Lemma status_counts_sum_counterexample :
  ∃ t, lead_analysis_charts [example_lead "CA" "Website" None] = Some t
       ∧ sum_counts (status_counts t) = 0
       ∧ length [example_lead "CA" "Website" None] = 1
       ∧ sum_counts (lead_source_counts t) = 1.
Proof.
  eexists. split; [reflexivity|].
  cbn [status_counts lead_source_counts]. unfold value_counts.
  rewrite !sum_counts_group_size. repeat split; reflexivity.
Qed.

(** C9 (amended): for a non-empty filtered frame, the status counts add up
    to the number of leads that have a status, the lead-source counts add
    up to the number of leads, each count is the number of leads with that
    value, and when every lead has a status the two sums and the number of
    leads are equal.  For an empty frame no table is made. *)
Theorem counts_sum_to_rows (df : list lead) :
  match lead_analysis_charts df with
  | None => df = []
  | Some t =>
      sum_counts (status_counts t)
      = length (filter (λ r, is_Some (Status r)) df)
      ∧ sum_counts (lead_source_counts t) = length df
      ∧ (∀ s, default 0 (status_counts t !! s)
              = length (filter (λ r, Status r = Some s) df))
      ∧ (∀ s, default 0 (lead_source_counts t !! s)
              = length (filter (λ r, LeadSource r = s) df))
      ∧ (Forall (λ r, is_Some (Status r)) df →
           sum_counts (status_counts t) = length df
           ∧ sum_counts (status_counts t)
             = sum_counts (lead_source_counts t))
  end.
Proof.
  assert (sum_counts (value_counts (map Status df))
          = length (filter (λ r, is_Some (Status r)) df)) as Hstatus.
  { unfold value_counts. rewrite sum_counts_group_size.
    apply filter_is_Some_fmap. }
  assert (sum_counts (value_counts (map (λ r, Some (LeadSource r)) df))
          = length df) as Hsource.
  { unfold value_counts. rewrite sum_counts_group_size.
    rewrite (filter_is_Some_fmap (λ r, Some (LeadSource r))).
    rewrite filter_all; [reflexivity|].
    apply Forall_forall. intros r _. eauto. }
  destruct (lead_analysis_charts df) as [t|] eqn:Ht; [|by destruct df].
  assert (t = {| status_counts := value_counts (map Status df);
                 lead_source_counts :=
                   value_counts (map (λ r, Some (LeadSource r)) df) |})
    as -> by (destruct df; [discriminate|by injection Ht]).
  clear Ht. cbn [status_counts lead_source_counts].
  split; [exact Hstatus|]. split; [exact Hsource|].
  split; [|split].
  - intros s. unfold value_counts. rewrite group_size_count.
    unfold occurrences. clear. induction df as [|r df IH]; [reflexivity|].
    cbn [map]. rewrite !filter_cons.
    destruct (decide (Status r = Some s)); cbn [length]; by rewrite IH.
  - intros s. unfold value_counts. rewrite group_size_count.
    unfold occurrences. clear. induction df as [|r df IH]; [reflexivity|].
    cbn [map]. rewrite !filter_cons.
    destruct (decide (LeadSource r = s)) as [->|Hne].
    + rewrite decide_True by reflexivity. cbn [length]. by rewrite IH.
    + rewrite decide_False by congruence. exact IH.
  - intros Hall. rewrite Hstatus, Hsource.
    rewrite filter_all by exact Hall. done.
Qed.

Lemma counts_sum_to_rows_witness :
  match lead_analysis_charts example_frame with
  | None => example_frame = []
  | Some t =>
      sum_counts (status_counts t) = length example_frame
      ∧ sum_counts (status_counts t) = sum_counts (lead_source_counts t)
  end.
Proof.
  pose proof (counts_sum_to_rows example_frame) as Hsum.
  destruct (lead_analysis_charts example_frame) as [t|]; [|exact Hsum].
  destruct Hsum as (_ & _ & _ & _ & Hall). apply Hall.
  apply (bool_decide_unpack _). vm_compute. exact I.
Defined.

(** ** The per-state table *)

Lemma lookup_set_to_map_key {A} (g : string → A) (Y : gset string) i :
  (set_to_map (λ y, (y, g y)) Y : gmap string A) !! i
  = if decide (i ∈ Y) then Some (g i) else None.
Proof.
  apply option_eq. intros x.
  rewrite lookup_set_to_map by (cbn; auto).
  destruct (decide (i ∈ Y)) as [Hi|Hi]; split.
  - intros (y & _ & [= -> <-]). reflexivity.
  - intros [= <-]. eauto.
  - intros (y & Hy & [= -> <-]). done.
  - discriminate.
Qed.

Lemma frame_for_pivot counts : frame_for counts (fillna0 (pivot counts)).
Proof.
  assert (∀ st, st ∈ (set_map fst (dom counts) : gset string)
                ↔ ∃ src, is_Some (counts !! (st, src))) as Hindex.
  { intros st. rewrite elem_of_map. split.
    - intros ([st' src] & -> & Hdom). exists src. by apply elem_of_dom.
    - intros [src Hsome]. exists (st, src). split; [done|by apply elem_of_dom]. }
  unfold frame_for, fillna0, pivot. cbn [rows columns].
  split; [|split].
  - intros st. rewrite lookup_fmap, fmap_is_Some, lookup_set_to_map_key.
    rewrite <- Hindex. case_decide; [by eauto|].
    split; [by intros [? ?]|done].
  - intros st src Hsome. apply elem_of_map. exists (st, src).
    split; [done|by apply elem_of_dom].
  - intros st row Hrow src.
    rewrite lookup_fmap, lookup_set_to_map_key in Hrow.
    case_decide; [|discriminate]. injection Hrow as <-.
    rewrite lookup_fmap, lookup_set_to_map_key. by case_decide.
Qed.

Lemma frame_for_ensure_column counts fr source :
  frame_for counts fr →
  frame_for counts (ensure_column fr source)
  ∧ source ∈ columns (ensure_column fr source)
  ∧ columns fr ⊆ columns (ensure_column fr source).
Proof.
  intros (Hrows & Hcols & Hcells). unfold ensure_column.
  case_bool_decide as Hin; [done|].
  cbn [columns].
  split; [|split; [by apply elem_of_union_l, elem_of_singleton
                  |apply union_subseteq_r]].
  unfold frame_for. cbn [rows columns]. split; [|split].
  - intros st. rewrite lookup_fmap, fmap_is_Some. apply Hrows.
  - intros st src Hsome. apply elem_of_union_r. by eapply Hcols.
  - intros st row (row0 & <- & Hrow0)%lookup_fmap_Some src.
    destruct (decide (source = src)) as [<-|Hne].
    + rewrite lookup_insert_eq, decide_True
        by (by apply elem_of_union_l, elem_of_singleton).
      destruct (counts !! (st, source)) eqn:Hc; [|reflexivity].
      exfalso. apply Hin. by eapply Hcols.
    + rewrite lookup_insert_ne by done. rewrite (Hcells st row0 Hrow0).
      destruct (decide (src ∈ columns fr)).
      * by rewrite decide_True by (by apply elem_of_union_r).
      * rewrite decide_False; [reflexivity|].
        intros [?%elem_of_singleton|?]%elem_of_union; congruence.
Qed.

Lemma frame_for_ensure_columns counts sources fr :
  frame_for counts fr →
  frame_for counts (foldl ensure_column fr sources)
  ∧ (∀ src, src ∈ sources → src ∈ columns (foldl ensure_column fr sources))
  ∧ columns fr ⊆ columns (foldl ensure_column fr sources).
Proof.
  revert fr. induction sources as [|source sources IH]; intros fr Hfr.
  { split; [done|]. split; [by intros ? ?%elem_of_nil|done]. }
  cbn [foldl].
  destruct (frame_for_ensure_column counts fr source Hfr)
    as (Hfr' & Hsource & Hsub).
  destruct (IH _ Hfr') as (Hfr'' & Hall & Hsub').
  split; [done|]. split; [|by etrans].
  intros src [->|Hsrc]%elem_of_cons; [by apply Hsub'|auto].
Qed.

Lemma elem_of_SPECIFIC src :
  src ∈ SPECIFIC_LEAD_SOURCES
  ↔ src = "Google Leads - Website" ∨ src = "Website" ∨ src = "Indeed"
    ∨ src = "Other".
Proof.
  unfold SPECIFIC_LEAD_SOURCES.
  rewrite !elem_of_cons, elem_of_nil. tauto.
Qed.

Lemma occurrences_state_source st src df :
  occurrences (st, src) (map state_source_key df)
  = state_source_count st src df.
Proof.
  unfold occurrences, state_source_count, state_source_key.
  induction df as [|r df IH]; [reflexivity|].
  cbn [map]. rewrite !filter_cons.
  destruct (LeadState r) as [st'|] eqn:Hst; cbn [mbind option_bind].
  - destruct (decide (st' = st ∧ LeadSource r = src)) as [[-> <-]|Hne].
    + rewrite !decide_True by done. cbn [length]. by rewrite IH.
    + rewrite !decide_False; [exact IH| |].
      * intros [[= ->] <-]. by apply Hne.
      * intros [= -> <-]. by apply Hne.
  - rewrite !decide_False; [exact IH| |]; [by intros [? _]|discriminate].
Qed.

Lemma occurrences_state st df :
  occurrences st (map LeadState df) = state_count st df.
Proof.
  unfold occurrences, state_count.
  induction df as [|r df IH]; [reflexivity|].
  cbn [map]. rewrite !filter_cons.
  destruct (decide (LeadState r = Some st)); cbn [length]; by rewrite IH.
Qed.

(** The leads of a state are those of its four displayed sources and
    those of its other sources. *)
Lemma state_count_split st df :
  state_count st df
  = state_source_count st "Google Leads - Website" df
    + state_source_count st "Website" df
    + state_source_count st "Indeed" df
    + state_source_count st "Other" df
    + state_other_count st df.
Proof.
  unfold state_count, state_source_count, state_other_count.
  induction df as [|r df IH]; [reflexivity|].
  rewrite !filter_cons.
  destruct (decide (LeadState r = Some st)) as [Hst|Hst].
  - destruct (decide (LeadSource r ∈ SPECIFIC_LEAD_SOURCES)) as [Hin|Hout].
    + rewrite (decide_False (P := _ ∧ LeadSource r ∉ _)) by tauto.
      apply elem_of_SPECIFIC in Hin as [Hs|[Hs|[Hs|Hs]]]; rewrite Hs;
        repeat (first [ rewrite decide_True by done
                      | rewrite decide_False by (intros [_ [=]]) ]);
        cbn [length]; lia.
    + rewrite (decide_True (P := _ ∧ LeadSource r ∉ _)) by tauto.
      rewrite elem_of_SPECIFIC in Hout.
      rewrite !(decide_False (P := _ ∧ LeadSource r = _)) by tauto.
      cbn [length]. lia.
  - rewrite !decide_False by tauto. exact IH.
Qed.

Lemma displayed_counts_lookup df st src :
  displayed_counts df !! (st, src)
  = if decide (src ∈ SPECIFIC_LEAD_SOURCES)
    then match state_source_count st src df with
         | 0 => None
         | S n => Some (S n)
         end
    else None.
Proof.
  unfold displayed_counts.
  rewrite map_lookup_filter, group_size_lookup, occurrences_state_source.
  cbn [fst snd].
  destruct (decide (src ∈ SPECIFIC_LEAD_SOURCES)) as [Hin|Hout];
    destruct (state_source_count st src df); cbn [mbind option_bind];
    try reflexivity.
  - by rewrite option_guard_True.
  - by rewrite option_guard_False.
Qed.

Lemma length_filter_pos {A} (P : A → Prop) `{!∀ x, Decision (P x)}
    (l : list A) (x : A) :
  x ∈ l → P x → 0 < length (filter P l).
Proof.
  intros Hx HP.
  assert (x ∈ filter P l) as Hin by (by apply list_elem_of_filter).
  destruct (filter P l); [by apply elem_of_nil in Hin|cbn; lia].
Qed.

Lemma length_filter_zero {A} (P : A → Prop) `{!∀ x, Decision (P x)}
    (l : list A) :
  (∀ x, x ∈ l → ¬ P x) → length (filter P l) = 0.
Proof.
  intros Hno. destruct (filter P l) as [|x l'] eqn:Hf; [reflexivity|].
  assert (x ∈ filter P l) as [HP Hx]%list_elem_of_filter
    by (rewrite Hf; left).
  by destruct (Hno x Hx).
Qed.

(** The table as a function of the pivoted frame. *)
Lemma us_map_visualization_lookup df st :
  us_map_visualization df !! st
  = (counts ← rows (foldl ensure_column
                      (fillna0 (pivot (displayed_counts df)))
                      SPECIFIC_LEAD_SOURCES) !! st;
     name ← (list_to_map STATE_ABBR_TO_NAME : gmap string string) !! st;
     Some {| source_counts := counts;
             Total := group_size (map LeadState df) !! st;
             State_Name := name;
             state_centroid :=
               (list_to_map STATE_CENTROIDS : gmap string centroid) !! st |}).
Proof.
  unfold us_map_visualization. rewrite map_lookup_imap. reflexivity.
Qed.

(** A state with a lead of a displayed source has a row, provided it has a
    name: the row has the count of each displayed source, 0 when there is
    none, and its total is the sum of these four counts and the number of
    the state's leads of other sources. *)
Lemma us_map_row_of_displayed_state df st name r :
  r ∈ df → LeadState r = Some st →
  LeadSource r ∈ SPECIFIC_LEAD_SOURCES →
  (list_to_map STATE_ABBR_TO_NAME : gmap string string) !! st = Some name →
  ∃ row, us_map_visualization df !! st = Some row
    ∧ (∀ src, src ∈ SPECIFIC_LEAD_SOURCES →
         source_counts row !! src = Some (state_source_count st src df))
    ∧ Total row
      = Some (state_source_count st "Google Leads - Website" df
              + state_source_count st "Website" df
              + state_source_count st "Indeed" df
              + state_source_count st "Other" df
              + state_other_count st df).
Proof.
  intros Hr Hst Hsrc Hname.
  destruct (frame_for_ensure_columns (displayed_counts df)
              SPECIFIC_LEAD_SOURCES _ (frame_for_pivot (displayed_counts df)))
    as ((Hrows & _ & Hcells) & Hcols & _).
  assert (0 < state_source_count st (LeadSource r) df) as Hpos
    by (by apply (length_filter_pos _ df r)).
  assert (is_Some (displayed_counts df !! (st, LeadSource r))) as Hsome.
  { rewrite displayed_counts_lookup, decide_True by done.
    destruct (state_source_count st (LeadSource r) df); [lia|eauto]. }
  assert (is_Some (rows (foldl ensure_column
                           (fillna0 (pivot (displayed_counts df)))
                           SPECIFIC_LEAD_SOURCES) !! st))
    as [counts Hcounts] by (apply Hrows; eauto).
  rewrite us_map_visualization_lookup, Hcounts, Hname.
  cbn [mbind option_bind]. eexists. split; [reflexivity|].
  cbn [source_counts Total]. split.
  - intros src Hin. rewrite (Hcells st counts Hcounts).
    rewrite decide_True by auto. f_equal.
    rewrite displayed_counts_lookup, decide_True by done.
    by destruct (state_source_count st src df).
  - rewrite group_size_lookup, occurrences_state.
    rewrite <- state_count_split.
    assert (0 < state_count st df) as Hpos'
      by (by apply (length_filter_pos _ df r)).
    destruct (state_count st df); [lia|reflexivity].
Qed.

(** A state all of whose leads have a source outside the displayed ones
    has no row. *)
Lemma us_map_no_row_without_displayed_source df st :
  (∀ r, r ∈ df → LeadState r = Some st →
        LeadSource r ∉ SPECIFIC_LEAD_SOURCES) →
  us_map_visualization df !! st = None.
Proof.
  intros Hout.
  destruct (frame_for_ensure_columns (displayed_counts df)
              SPECIFIC_LEAD_SOURCES _ (frame_for_pivot (displayed_counts df)))
    as ((Hrows & _ & _) & _ & _).
  rewrite us_map_visualization_lookup.
  destruct (rows _ !! st) as [counts|] eqn:Hcounts; [|reflexivity].
  exfalso.
  assert (∃ src, is_Some (displayed_counts df !! (st, src)))
    as [src [n Hn]] by (apply Hrows; eauto).
  rewrite displayed_counts_lookup in Hn.
  case_decide as Hin; [|discriminate].
  assert (state_source_count st src df = 0) as Hzero.
  { apply length_filter_zero. intros r Hr [Hst Hsrc].
    apply (Hout r Hr Hst). by rewrite Hsrc. }
  by rewrite Hzero in Hn.
Qed.

(** C2: evaluation of the per-state table on a filtered frame of two
    leads, one in California with the source "Customer Referral" and one in
    Texas with the source "Website": California occurs in the frame, with
    one lead, yet the table has no row for it; Texas has its row, with the
    four counts and the total. *)
Theorem state_without_displayed_source_has_no_row :
  example_lead "CA" "Customer Referral" (Some "New") ∈ referral_frame
  ∧ LeadState (example_lead "CA" "Customer Referral" (Some "New"))
    = Some "CA"
  ∧ state_count "CA" referral_frame = 1
  ∧ state_other_count "CA" referral_frame = 1
  ∧ us_map_visualization referral_frame !! "CA" = None
  ∧ ∃ row, us_map_visualization referral_frame !! "TX" = Some row
           ∧ source_counts row !! "Google Leads - Website" = Some 0
           ∧ source_counts row !! "Website" = Some 1
           ∧ source_counts row !! "Indeed" = Some 0
           ∧ source_counts row !! "Other" = Some 0
           ∧ Total row = Some 1.
Proof.
  split; [left|]. split; [reflexivity|].
  split; [reflexivity|]. split; [reflexivity|].
  split.
  - apply us_map_no_row_without_displayed_source.
    intros r [->|[->|[]%elem_of_nil]%elem_of_cons]%elem_of_cons;
      [|discriminate].
    intros _. rewrite elem_of_SPECIFIC. cbn [LeadSource example_lead].
    intros [?|[?|[?|?]]]; discriminate.
  - destruct (us_map_row_of_displayed_state referral_frame "TX" "Texas"
                (example_lead "TX" "Website" (Some "New")))
      as (row & Hrow & Hcounts & Htotal).
    + right. left.
    + reflexivity.
    + apply elem_of_SPECIFIC. auto.
    + vm_compute. reflexivity.
    + exists row. split; [exact Hrow|].
      rewrite !Hcounts by (apply elem_of_SPECIFIC; auto).
      rewrite Htotal. repeat split; reflexivity.
Qed.

(** * Further properties *)

(** ** Table height *)



(** ** State resolution and the tables *)

Lemma Forall_computed {A} (P : A → Prop) `{!∀ x, Decision (P x)}
    (l : list A) :
  bool_decide (Forall P l) = true → ∀ x, x ∈ l → P x.
Proof. intros Hall%bool_decide_eq_true. by apply Forall_forall. Qed.

Lemma abbreviation_lookups code :
  code ∈ STATE_ABBREVIATIONS →
  is_Some (state_names !! code) ∧ is_Some (state_centroids !! code)
  ∧ code ≠ "DC".
Proof.
  revert code.
  apply (Forall_computed
           (λ code, is_Some (state_names !! code)
                    ∧ is_Some (state_centroids !! code) ∧ code ≠ "DC")).
  vm_compute. reflexivity.
Qed.

Lemma name_entry_code abbr name :
  (abbr, name) ∈ STATE_ABBR_TO_NAME →
  (abbr ∈ STATE_ABBREVIATIONS ∨ abbr = "DC")
  ∧ state_names !! abbr = Some name
  ∧ match_value (Some name) = Some abbr.
Proof.
  revert abbr name.
  assert (∀ kv, kv ∈ STATE_ABBR_TO_NAME →
                (kv.1 ∈ STATE_ABBREVIATIONS ∨ kv.1 = "DC")
                ∧ state_names !! kv.1 = Some kv.2
                ∧ match_value (Some kv.2) = Some kv.1) as Hall.
  { apply (Forall_computed
             (λ kv : string * string,
                (kv.1 ∈ STATE_ABBREVIATIONS ∨ kv.1 = "DC")
                ∧ state_names !! kv.1 = Some kv.2
                ∧ match_value (Some kv.2) = Some kv.1)).
    vm_compute. reflexivity. }
  intros abbr name Hin. apply (Hall (abbr, name) Hin).
Qed.

Lemma DC_lookups :
  state_names !! "DC" = Some "Washington D.C."
  ∧ state_centroids !! "DC" = None.
Proof. split; vm_compute; reflexivity. Qed.

Lemma determine_state_code_cases (r : Raw.row) (code : string) :
  determine_state r = Some code →
  code ∈ STATE_ABBREVIATIONS ∨ code = "DC".
Proof.
  intros Hst.
  assert (∃ value, match_value value = Some code) as [value Hm].
  { rewrite determine_state_unfold in Hst.
    destruct (match_value (Raw.State r)) eqn:H1; [injection Hst as ->; eauto|].
    destruct (match_value (Raw.Lead_State_Province__c r)) eqn:H2;
      [injection Hst as ->; eauto|eauto]. }
  apply match_value_Some in Hm as (s & _ & [[_ Hin]|(_ & _ & Hin)]).
  - by left.
  - by destruct (name_entry_code _ _ Hin) as (Hcases & _).
Qed.

Lemma resolved_code_has_name (code : string) :
  code ∈ STATE_ABBREVIATIONS ∨ code = "DC" → is_Some (state_names !! code).
Proof.
  intros [Hin| ->].
  - by destruct (abbreviation_lookups code Hin) as (Hn & _).
  - rewrite (proj1 DC_lookups). eauto.
Qed.

Lemma resolved_code_centroid (code : string) :
  code ∈ STATE_ABBREVIATIONS ∨ code = "DC" →
  (state_centroids !! code = None ↔ code = "DC").
Proof.
  intros [Hin| ->].
  - destruct (abbreviation_lookups code Hin) as (_ & [c Hc] & Hdc).
    rewrite Hc. split; [discriminate|done].
  - by rewrite (proj2 DC_lookups).
Qed.

(** X2: a resolved state is one of the fifty abbreviations or "DC"; it
    always has a name in [STATE_ABBR_TO_NAME], and it has a centroid in
    [STATE_CENTROIDS] exactly when it is not "DC". *)
Theorem determine_state_in_tables (r : Raw.row) (code : string) :
  determine_state r = Some code →
  (code ∈ STATE_ABBREVIATIONS ∨ code = "DC")
  ∧ is_Some (state_names !! code)
  ∧ (is_Some (state_centroids !! code) ↔ code ≠ "DC").
Proof.
  intros Hcases%determine_state_code_cases.
  split; [exact Hcases|]. split; [by apply resolved_code_has_name|].
  pose proof (resolved_code_centroid code Hcases) as Hc.
  destruct (state_centroids !! code) as [c|].
  - split; [intros _ Hdc|eauto]. apply Hc in Hdc. discriminate.
  - split; [by intros [? ?]|]. intros Hne. destruct Hne. by apply Hc.
Qed.

Lemma determine_state_in_tables_witness :
  ("DC" ∈ STATE_ABBREVIATIONS ∨ "DC" = "DC")
  ∧ is_Some (state_names !! "DC")
  ∧ (is_Some (state_centroids !! "DC") ↔ "DC" ≠ "DC").
Proof.
  apply (determine_state_in_tables
           (example_row None (Some " washington d.c.") None None None)).
  reflexivity.
Defined.

(** X3: every entry of the tables resolves to its own code: a State that
    is one of the fifty abbreviations resolves to that abbreviation, and a
    State that is a full name of [STATE_ABBR_TO_NAME] resolves to the
    abbreviation of that name ("Washington D.C." to "DC"). *)
Theorem table_entries_resolve (r : Raw.row) :
  (∀ code, code ∈ STATE_ABBREVIATIONS → Raw.State r = Some code →
           determine_state r = Some code)
  ∧ (∀ abbr name, (abbr, name) ∈ STATE_ABBR_TO_NAME →
       Raw.State r = Some name → determine_state r = Some abbr).
Proof.
  split.
  - intros code Hin Hs.
    assert (∀ c, c ∈ STATE_ABBREVIATIONS → match_value (Some c) = Some c)
      as Hall
      by (apply (Forall_computed (λ c, match_value (Some c) = Some c));
          vm_compute; reflexivity).
    rewrite determine_state_unfold, Hs. by rewrite (Hall code Hin).
  - intros abbr name Hin Hs.
    destruct (name_entry_code _ _ Hin) as (_ & _ & Hm).
    rewrite determine_state_unfold, Hs. by rewrite Hm.
Qed.

Lemma table_entries_resolve_witness :
  determine_state (example_row (Some "VT") (Some "Texas") None None None)
  = Some "VT"
  ∧ determine_state
      (example_row (Some "New Hampshire") None (Some "CA") None None)
    = Some "NH".
Proof.
  split.
  - apply (table_entries_resolve
             (example_row (Some "VT") (Some "Texas") None None None)).
    + apply (bool_decide_unpack _). vm_compute. exact I.
    + reflexivity.
  - apply (proj2 (table_entries_resolve
                    (example_row (Some "New Hampshire") None (Some "CA")
                                 None None))
             "NH" "New Hampshire").
    + apply (bool_decide_unpack _). vm_compute. exact I.
    + reflexivity.
Defined.

(** ** Case and white space in the location fields *)

Lemma char_case_facts c :
  PyStr.isspace (PyStr.upper_char c) = PyStr.isspace c
  ∧ PyStr.isspace (PyStr.lower_char c) = PyStr.isspace c
  ∧ PyStr.upper_char (PyStr.upper_char c) = PyStr.upper_char c
  ∧ PyStr.upper_char (PyStr.lower_char c) = PyStr.upper_char c
  ∧ PyStr.lower_char (PyStr.upper_char c) = PyStr.lower_char c
  ∧ PyStr.lower_char (PyStr.lower_char c) = PyStr.lower_char c
  ∧ PyStr.is_cased (PyStr.upper_char c) = PyStr.is_cased c
  ∧ PyStr.is_cased (PyStr.lower_char c) = PyStr.is_cased c.
Proof.
  destruct c as [[] [] [] [] [] [] [] []]; vm_compute; repeat split.
Qed.

Lemma lstrip_upper s :
  PyStr.lstrip (PyStr.upper s) = PyStr.upper (PyStr.lstrip s).
Proof.
  induction s as [|c s IH]; [reflexivity|]. cbn [PyStr.upper PyStr.lstrip].
  rewrite (proj1 (char_case_facts c)).
  destruct (PyStr.isspace c); [exact IH|reflexivity].
Qed.

Lemma rstrip_upper s :
  PyStr.rstrip (PyStr.upper s) = PyStr.upper (PyStr.rstrip s).
Proof.
  induction s as [|c s IH]; [reflexivity|]. cbn [PyStr.upper PyStr.rstrip].
  rewrite IH, (proj1 (char_case_facts c)).
  destruct (PyStr.rstrip s); cbn [PyStr.upper];
    [by destruct (PyStr.isspace c)|reflexivity].
Qed.

Lemma lstrip_lower s :
  PyStr.lstrip (py_lower s) = py_lower (PyStr.lstrip s).
Proof.
  induction s as [|c s IH]; [reflexivity|]. cbn [py_lower PyStr.lstrip].
  rewrite (proj1 (proj2 (char_case_facts c))).
  destruct (PyStr.isspace c); [exact IH|reflexivity].
Qed.

Lemma rstrip_lower s :
  PyStr.rstrip (py_lower s) = py_lower (PyStr.rstrip s).
Proof.
  induction s as [|c s IH]; [reflexivity|]. cbn [py_lower PyStr.rstrip].
  rewrite IH, (proj1 (proj2 (char_case_facts c))).
  destruct (PyStr.rstrip s); cbn [py_lower];
    [by destruct (PyStr.isspace c)|reflexivity].
Qed.

Lemma upper_upper s : PyStr.upper (PyStr.upper s) = PyStr.upper s.
Proof.
  induction s as [|c s IH]; [reflexivity|]. cbn [PyStr.upper].
  destruct (char_case_facts c) as (_ & _ & -> & _). by rewrite IH.
Qed.

Lemma upper_lower s : PyStr.upper (py_lower s) = PyStr.upper s.
Proof.
  induction s as [|c s IH]; [reflexivity|]. cbn [PyStr.upper py_lower].
  destruct (char_case_facts c) as (_ & _ & _ & -> & _). by rewrite IH.
Qed.

Lemma title_from_upper b s :
  PyStr.title_from b (PyStr.upper s) = PyStr.title_from b s.
Proof.
  revert b. induction s as [|c s IH]; intros b; [reflexivity|].
  cbn [PyStr.upper PyStr.title_from].
  destruct (char_case_facts c) as (_ & _ & Huu & _ & Hlu & _ & Hcu & _).
  rewrite Huu, Hlu, Hcu, IH. reflexivity.
Qed.

Lemma title_from_lower b s :
  PyStr.title_from b (py_lower s) = PyStr.title_from b s.
Proof.
  revert b. induction s as [|c s IH]; intros b; [reflexivity|].
  cbn [py_lower PyStr.title_from].
  destruct (char_case_facts c) as (_ & _ & _ & Hul & _ & Hll & _ & Hcl).
  rewrite Hul, Hll, Hcl, IH. reflexivity.
Qed.

Lemma match_value_upper value :
  match_value (PyStr.upper <$> value) = match_value value.
Proof.
  destruct value as [s|]; [|reflexivity].
  cbn [fmap option_fmap option_map match_value]. unfold PyStr.strip, PyStr.title.
  rewrite lstrip_upper, rstrip_upper, upper_upper, title_from_upper.
  reflexivity.
Qed.

Lemma match_value_lower value :
  match_value (py_lower <$> value) = match_value value.
Proof.
  destruct value as [s|]; [|reflexivity].
  cbn [fmap option_fmap option_map match_value]. unfold PyStr.strip, PyStr.title.
  rewrite lstrip_lower, rstrip_lower, upper_lower, title_from_lower.
  reflexivity.
Qed.

Lemma append_String c s t :
  String.append (String c s) t = String c (String.append s t).
Proof. reflexivity. Qed.

Lemma append_EmptyString t : String.append EmptyString t = t.
Proof. reflexivity. Qed.

Lemma lstrip_padding pre s :
  all_space pre = true →
  PyStr.lstrip (String.append pre s) = PyStr.lstrip s.
Proof.
  induction pre as [|c pre IH]; [reflexivity|].
  rewrite append_String. cbn [all_space PyStr.lstrip].
  intros [-> Hpre]%andb_true_iff. auto.
Qed.

Lemma rstrip_all_space post :
  all_space post = true → PyStr.rstrip post = EmptyString.
Proof.
  induction post as [|c post IH]; [reflexivity|].
  cbn [all_space PyStr.rstrip].
  intros [-> Hpost]%andb_true_iff. by rewrite IH.
Qed.

Lemma rstrip_padding s post :
  all_space post = true →
  PyStr.rstrip (String.append s post) = PyStr.rstrip s.
Proof.
  intros Hpost. induction s as [|c s IH].
  - rewrite append_EmptyString. by rewrite rstrip_all_space.
  - rewrite append_String. cbn [PyStr.rstrip]. by rewrite IH.
Qed.

Lemma lstrip_append_nonempty s post :
  PyStr.lstrip s ≠ EmptyString →
  PyStr.lstrip (String.append s post)
  = String.append (PyStr.lstrip s) post.
Proof.
  induction s as [|c s IH]; [done|].
  rewrite append_String. cbn [PyStr.lstrip].
  destruct (PyStr.isspace c); [exact IH|reflexivity].
Qed.

Lemma lstrip_all_space s :
  PyStr.lstrip s = EmptyString → all_space s = true.
Proof.
  induction s as [|c s IH]; [reflexivity|].
  cbn [PyStr.lstrip all_space].
  destruct (PyStr.isspace c); [exact IH|discriminate].
Qed.

Lemma all_space_append s post :
  all_space s = true → all_space post = true →
  all_space (String.append s post) = true.
Proof.
  induction s as [|c s IH]; [done|].
  rewrite append_String. cbn [all_space].
  intros [-> Hs]%andb_true_iff Hpost. auto.
Qed.

Lemma strip_padding pre s post :
  all_space pre = true → all_space post = true →
  PyStr.strip (String.append pre (String.append s post)) = PyStr.strip s.
Proof.
  intros Hpre Hpost. unfold PyStr.strip. rewrite lstrip_padding by done.
  destruct (PyStr.lstrip s) as [|c t] eqn:Hl.
  - assert (all_space (String.append s post) = true) as Hall
      by (apply all_space_append; [by apply lstrip_all_space|done]).
    clear -Hall. cbn [PyStr.rstrip].
    induction (String.append s post) as [|c u IH]; [reflexivity|].
    cbn [all_space PyStr.lstrip] in *.
    apply andb_true_iff in Hall as [-> Hu]. auto.
  - rewrite lstrip_append_nonempty by (rewrite Hl; discriminate).
    rewrite Hl. by apply rstrip_padding.
Qed.

(** X4: state resolution ignores the case of the location fields and the
    white space around them: a record resolves as it does with its three
    fields upper-cased, or lower-cased, and a field value resolves as it
    does with white space added before and after it. *)
Theorem determine_state_ignores_case_and_padding (r : Raw.row) :
  determine_state (map_location PyStr.upper r) = determine_state r
  ∧ determine_state (map_location py_lower r) = determine_state r
  ∧ (∀ pre s post, all_space pre = true → all_space post = true →
       match_value (Some (String.append pre (String.append s post)))
       = match_value (Some s)).
Proof.
  split; [|split].
  - rewrite !determine_state_unfold. cbn [map_location Raw.State
      Raw.Lead_State_Province__c Raw.Street].
    by rewrite !match_value_upper.
  - rewrite !determine_state_unfold. cbn [map_location Raw.State
      Raw.Lead_State_Province__c Raw.Street].
    by rewrite !match_value_lower.
  - intros pre s post Hpre Hpost. cbn [match_value].
    by rewrite strip_padding.
Qed.

Lemma determine_state_ignores_case_and_padding_witness :
  match_value (Some (String.append "  " (String.append "ohio" " ")))
  = match_value (Some "ohio").
Proof.
  apply (determine_state_ignores_case_and_padding
           (example_row None None None None None)); reflexivity.
Defined.

(** ** The processed frame *)

Lemma raw_process_lead_records records :
  raw <$> process_lead_records records
  = filter (λ r, is_Some (determine_state r)) records.
Proof.
  unfold process_lead_records, dropna_LeadState.
  induction records as [|r records IH]; [reflexivity|].
  cbn [map]. rewrite !filter_cons. cbn [assign_columns LeadState].
  destruct (decide (is_Some (determine_state r)));
    cbn [fmap list_fmap]; by rewrite <- IH.
Qed.

(** X5: the processed frame is the raw records whose state resolves, in
    their order, none repeated or invented; each of its leads carries the
    remapped source and the resolved state of its own raw record, the
    source is one of the six canonical ones and the state has a name. *)
Theorem process_lead_records_keeps_order (records : list Raw.row) :
  raw <$> process_lead_records records
  = filter (λ r, is_Some (determine_state r)) records
  ∧ (raw <$> process_lead_records records) `sublist_of` records
  ∧ ∀ l, l ∈ process_lead_records records →
         l = assign_columns (raw l)
         ∧ LeadSource l ∈ canonical_lead_sources
         ∧ ∃ code name, LeadState l = Some code
                        ∧ state_names !! code = Some name.
Proof.
  split; [apply raw_process_lead_records|].
  split; [rewrite raw_process_lead_records; apply sublist_filter|].
  intros l (r & _ & -> & [code Hst])%elem_of_process_lead_records.
  split; [reflexivity|]. split.
  - cbn [LeadSource assign_columns]. apply elem_of_canonical.
    destruct (Raw.LeadSource r) as [s|]; cbn [remap_one]; [|by right].
    destruct (str_in s ALLOWED_LEAD_SOURCES) eqn:Hin; [|by right].
    left. by apply str_in_true.
  - destruct (resolved_code_has_name code
                (determine_state_code_cases r code Hst)) as [name Hn].
    exists code, name. split; [exact Hst|exact Hn].
Qed.

Lemma process_lead_records_keeps_order_witness :
  assign_columns (example_row (Some "tx") None None (Some "Bing") None)
  = assign_columns
      (raw (assign_columns
              (example_row (Some "tx") None None (Some "Bing") None)))
  ∧ LeadSource
      (assign_columns (example_row (Some "tx") None None (Some "Bing") None))
    ∈ canonical_lead_sources
  ∧ ∃ code name,
      LeadState
        (assign_columns
           (example_row (Some "tx") None None (Some "Bing") None))
      = Some code
      ∧ state_names !! code = Some name.
Proof.
  apply (process_lead_records_keeps_order
           [example_row (Some "tx") None None (Some "Bing") None]).
  vm_compute. left.
Defined.

(** ** The selection callbacks *)

Lemma two_distinct_length {A} (l : list A) x y :
  x ∈ l → y ∈ l → x ≠ y → 1 < length l.
Proof.
  destruct l as [|a [|b l]]; cbn [length]; [by intros ?%elem_of_nil| |lia].
  intros ->%list_elem_of_singleton ->%list_elem_of_singleton. done.
Qed.

Lemma reconcile_with_concrete (value : list string) x :
  x ∈ value → x ≠ "All" →
  reconcile value = filter (λ v, v ≠ "All") value.
Proof.
  intros Hx Hne. unfold reconcile.
  destruct (str_in "All" value) eqn:Hall.
  - apply str_in_true in Hall.
    assert (1 < length value) as Hlen
      by (by apply (two_distinct_length value x "All")).
    apply Nat.ltb_lt in Hlen. by rewrite Hlen.
  - apply str_in_false in Hall.
    rewrite bool_decide_eq_false_2
      by (intros ->; by apply elem_of_nil in Hx).
    symmetry. apply filter_all, Forall_forall. by intros v Hv ->.
Qed.

Lemma reconcile_without_concrete (value : list string) :
  (∀ x, x ∈ value → x = "All") → NoDup value → reconcile value = ["All"].
Proof.
  intros Hall Hnd. destruct value as [|x [|y rest]]; [reflexivity| |].
  - rewrite (Hall x) by left. reflexivity.
  - exfalso. apply NoDup_cons in Hnd as [Hxy _]. apply Hxy.
    rewrite (Hall x) by left. rewrite <- (Hall y) by (right; left). left.
Qed.

Lemma reconcile_fixed_point (selected : list string) :
  selection_ok selected → reconcile selected = selected.
Proof.
  intros [->|[Hne Hall]]; [reflexivity|]. unfold reconcile.
  apply str_in_false in Hall. rewrite Hall.
  by rewrite bool_decide_eq_false_2.
Qed.

(** X6: what a callback leaves under its key: when the submitted list
    holds a concrete value, exactly the concrete values submitted, in their
    order (only "All" is removed); when it holds none, ["All"]. *)
Theorem reconcile_keeps_concrete_values
    (d : dimension) (ss : session) (value : list string) :
  ((∃ x, x ∈ value ∧ x ≠ "All") →
   multiselect_change d value ss
   = Some (<[widget_key d := filter (λ v, v ≠ "All") value]> ss))
  ∧ ((∀ x, x ∈ value → x = "All") → NoDup value →
     multiselect_change d value ss
     = Some (<[widget_key d := ["All"]]> ss)).
Proof.
  rewrite multiselect_change_reconcile. split.
  - intros (x & Hx & Hne). by rewrite (reconcile_with_concrete value x).
  - intros Hall Hnd. by rewrite reconcile_without_concrete.
Qed.

Lemma reconcile_keeps_concrete_values_witness :
  multiselect_change Product ["Crane"; "All"; "Lift"] initial_session
  = Some (<[widget_key Product :=
             filter (λ v, v ≠ "All") ["Crane"; "All"; "Lift"]]>
            initial_session)
  ∧ multiselect_change Product ["All"] session_2024
    = Some (<[widget_key Product := ["All"]]> session_2024).
Proof.
  split.
  - apply (reconcile_keeps_concrete_values Product initial_session
             ["Crane"; "All"; "Lift"]).
    exists "Crane". split; [left|discriminate].
  - apply (reconcile_keeps_concrete_values Product session_2024 ["All"]).
    + intros x Hx. by apply list_elem_of_singleton in Hx.
    + apply (bool_decide_unpack _). vm_compute. exact I.
Defined.

(** X7: a reconciled selection is a fixed point of the callbacks: running
    the callback of a dimension again on the state an edit produced
    changes nothing. *)
Theorem on_change_idempotent
    (d : dimension) (ss ss' : session) (value : list string) :
  NoDup value →
  multiselect_change d value ss = Some ss' →
  on_change d ss' = Some ss'.
Proof.
  intros Hnd Hstep. rewrite multiselect_change_reconcile in Hstep.
  injection Hstep as <-.
  rewrite (on_change_reconcile d _ (reconcile value))
    by apply lookup_insert_eq.
  rewrite reconcile_fixed_point by (by apply reconcile_ok).
  by rewrite insert_insert_eq.
Qed.

Lemma on_change_idempotent_witness :
  on_change Year session_2024 = Some session_2024.
Proof.
  apply (on_change_idempotent Year initial_session session_2024
           ["All"; "2024"]).
  - apply (bool_decide_unpack _). vm_compute. exact I.
  - exact (multiselect_change_reconcile Year initial_session
             ["All"; "2024"]).
Defined.

(** X8: a callback fails exactly when its own key is not in the session
    state; when it succeeds it neither adds nor removes a key and leaves
    the value of every other key as it was. *)
Theorem on_change_touches_own_key (d : dimension) (ss : session) :
  (on_change d ss = None ↔ ss !! widget_key d = None)
  ∧ ∀ ss', on_change d ss = Some ss' →
           dom ss' = dom ss
           ∧ ∀ key, key ≠ widget_key d → ss' !! key = ss !! key.
Proof.
  destruct (ss !! widget_key d) as [selected|] eqn:Hsel.
  - rewrite (on_change_reconcile d ss selected Hsel). split; [done|].
    intros ss' [= <-]. split.
    + rewrite dom_insert_L.
      assert (widget_key d ∈ dom ss) by (apply elem_of_dom; eauto).
      apply set_eq. intros key. rewrite elem_of_union, elem_of_singleton.
      split; [intros [->|?]; done|auto].
    + intros key Hne. by apply lookup_insert_ne.
  - assert (on_change d ss = None) as Hnone.
    { destruct d; cbn [on_change widget_key] in *;
        unfold update_year, update_owner, update_lead_source,
          update_lead_status, update_product;
        by rewrite Hsel. }
    rewrite Hnone. split; [done|]. intros ss' [=].
Qed.

Lemma on_change_session_2024 :
  on_change Year session_2024 = Some session_2024.
Proof.
  unfold session_2024.
  rewrite (on_change_reconcile Year _ ["2024"]) by apply lookup_insert_eq.
  cbn [widget_key]. by rewrite insert_insert_eq.
Qed.

Lemma on_change_touches_own_key_witness :
  dom session_2024 = dom session_2024
  ∧ ∀ key, key ≠ widget_key Year →
           session_2024 !! key = session_2024 !! key.
Proof.
  apply (proj2 (on_change_touches_own_key Year session_2024) session_2024).
  exact on_change_session_2024.
Defined.

Lemma init_selections_idempotent keys (ss : session) :
  init_selections keys (init_selections keys ss) = init_selections keys ss.
Proof.
  apply map_eq. intros key. rewrite !init_selections_lookup.
  by destruct (decide (key ∈ keys)).
Qed.

(** X9: the initialisation of the selections never overwrites one: after
    it each listed key holds the selection it had, or ["All"] when it had
    none, and every other key is as before.  Hence it is idempotent, and
    the initialisation of [main] and that of [filtering_section], which
    list the five keys in different orders, give the same state. *)
Theorem init_selections_keeps_selections (keys : list string) (ss : session) :
  (∀ key, init_selections keys ss !! key
          = if decide (key ∈ keys) then Some (default ["All"] (ss !! key))
            else ss !! key)
  ∧ init_selections keys (init_selections keys ss) = init_selections keys ss
  ∧ init_selections main_keys ss = init_selections filtering_keys ss
  ∧ ∀ d, is_Some (init_selections filtering_keys ss !! widget_key d).
Proof.
  split; [apply init_selections_lookup|]. split; [|split].
  - apply init_selections_idempotent.
  - apply map_eq. intros key. rewrite !init_selections_lookup.
    destruct (decide (key ∈ main_keys)) as [Hin|Hout].
    + rewrite decide_True; [reflexivity|].
      revert Hin. unfold main_keys, filtering_keys.
      rewrite !elem_of_cons, !elem_of_nil. tauto.
    + rewrite decide_False; [reflexivity|].
      revert Hout. unfold main_keys, filtering_keys.
      rewrite !elem_of_cons, !elem_of_nil. tauto.
  - intros d. rewrite init_selections_lookup.
    rewrite decide_True; [eauto|].
    destruct d; unfold filtering_keys; cbn [widget_key];
      rewrite !elem_of_cons; tauto.
Qed.

(** ** The filtering section as one filter *)

Lemma selection_stage_filter (f : lead → option string)
    (selection : list string) (df : list lead) :
  (if negb (str_in "All" selection)
   then filter (λ r, isin (f r) selection) df else df)
  = filter (λ r, selection_keeps selection (f r)) df.
Proof.
  unfold selection_keeps. destruct (str_in "All" selection); cbn [negb orb].
  - symmetry. apply filter_all, Forall_forall. by intros.
  - reflexivity.
Qed.

Lemma year_stage_filter int (ss : session) (df : list lead) :
  snd (year_filter int ss df)
  = filter (λ r, year_keeps int (ss !!! "year_selection")
                   (Raw.year (CreatedDate r))) df.
Proof.
  unfold year_filter, year_keeps.
  destruct (str_in "All" (ss !!! "year_selection")); cbn [negb orb snd].
  - symmetry. apply filter_all, Forall_forall. by intros.
  - destruct (mapM int (ss !!! "year_selection")) as [years|]; cbn [snd].
    + apply list_filter_iff. intros r. by rewrite bool_decide_spec.
    + symmetry. apply filter_all, Forall_forall. by intros.
Qed.

Lemma date_stage_filter date_from date_to (df : list lead) :
  date_range_filter date_from date_to df
  = filter (λ r, range_keeps date_from date_to (CreatedDate r)) df.
Proof.
  unfold date_range_filter, range_keeps.
  destruct (date_leb date_from date_to); cbn [negb orb].
  - reflexivity.
  - symmetry. apply filter_all, Forall_forall. by intros.
Qed.

Lemma filtering_section_filter int df ss date_from date_to a b c :
  df_filtered (filtering_section int df ss date_from date_to a b c)
  = filter (λ r, lead_kept int (init_selections filtering_keys ss)
                   date_from date_to r) df.
Proof.
  rewrite filtering_section_df_filtered, filtering_section_session_after.
  fold filtering_keys.
  unfold apply_dimension_filters, product_filter, lead_status_filter,
    lead_source_filter, owner_filter.
  rewrite date_stage_filter, (selection_stage_filter Product__c),
    (selection_stage_filter Status),
    (selection_stage_filter (λ r, Some (LeadSource r))),
    (selection_stage_filter OwnerName), year_stage_filter.
  rewrite !list_filter_filter. apply list_filter_iff. intros r.
  unfold lead_kept. rewrite !andb_True. tauto.
Qed.

Lemma filtering_section_last_event int df ss date_from date_to a b c :
  last (sidebar (filtering_section int df ss date_from date_to a b c))
  = Some (sidebar_write_total_leads
            (length (df_filtered
                       (filtering_section int df ss date_from date_to a b c)))).
Proof.
  unfold filtering_section.
  destruct (year_filter int _ df) as [year_events df'].
  cbn [sidebar df_filtered]. rewrite !app_assoc. apply last_snoc.
Qed.

(** X10: [filtering_section] judges each lead on its own: its result is
    the leads of the frame that pass the six tests, in the order of the
    frame, so it is a sublist of the frame, the result for two frames put
    end to end is the two results put end to end, and the last thing
    written to the sidebar is the number of leads of the result. *)
Theorem filtering_section_is_filter
    (int : string → option Z) (df df' : list lead) (ss : session)
    (date_from date_to : Raw.date) (a b c : bool) :
  df_filtered (filtering_section int df ss date_from date_to a b c)
  = filter (λ r, lead_kept int (init_selections filtering_keys ss)
                   date_from date_to r) df
  ∧ df_filtered (filtering_section int df ss date_from date_to a b c)
    `sublist_of` df
  ∧ df_filtered (filtering_section int (df ++ df') ss date_from date_to a b c)
    = df_filtered (filtering_section int df ss date_from date_to a b c)
      ++ df_filtered (filtering_section int df' ss date_from date_to a b c)
  ∧ last (sidebar (filtering_section int df ss date_from date_to a b c))
    = Some (sidebar_write_total_leads
              (length (df_filtered
                         (filtering_section int df ss date_from date_to
                            a b c))))
  ∧ length (df_filtered (filtering_section int df ss date_from date_to a b c))
    ≤ length df.
Proof.
  rewrite !filtering_section_filter.
  split; [reflexivity|]. split; [apply sublist_filter|].
  split; [apply filter_app|].
  split; [|apply length_filter].
  rewrite filtering_section_last_event.
  by rewrite filtering_section_filter.
Qed.

Lemma selection_keeps_All selection cell :
  "All" ∈ selection → selection_keeps selection cell = true.
Proof.
  intros Hall%str_in_true. unfold selection_keeps. by rewrite Hall.
Qed.

Lemma selection_keeps_concrete selection cell :
  "All" ∉ selection → selection_keeps selection cell = true →
  ∃ v, cell = Some v ∧ v ∈ selection.
Proof.
  intros Hall%str_in_false. unfold selection_keeps. rewrite Hall.
  cbn [orb]. destruct cell as [v|]; cbn [isin]; [|discriminate].
  intros Hv%str_in_true. eauto.
Qed.

(** X12: with "All" in each of the five selections (as on the first run)
    the selections filter nothing: when the date range is invalid, or when
    every lead of the frame was created within it, the result is the whole
    frame. *)
Theorem filtering_section_all_selected
    (int : string → option Z) (df : list lead) (ss : session)
    (date_from date_to : Raw.date) (a b c : bool) :
  (∀ d, "All" ∈ init_selections filtering_keys ss !!! widget_key d) →
  (date_gtb date_from date_to = true
   ∨ ∀ r, r ∈ df → date_leb date_from (CreatedDate r) = true
                   ∧ date_leb (CreatedDate r) date_to = true) →
  df_filtered (filtering_section int df ss date_from date_to a b c) = df.
Proof.
  intros Hall Hrange. rewrite filtering_section_filter.
  apply filter_all, Forall_forall. intros r Hr. apply Is_true_true.
  unfold lead_kept, year_keeps.
  rewrite (selection_keeps_All _ _ (Hall Owner)),
    (selection_keeps_All _ _ (Hall Lead_Source)),
    (selection_keeps_All _ _ (Hall Lead_Status)),
    (selection_keeps_All _ _ (Hall Product)).
  pose proof (proj2 (str_in_true _ _) (Hall Year)) as Hyear.
  cbn [widget_key] in Hyear. rewrite Hyear. cbn [orb andb].
  unfold range_keeps. destruct Hrange as [Hgt|Hin].
  - rewrite date_gtb_negb_leb in Hgt. by rewrite Hgt.
  - destruct (Hin r Hr) as [-> ->]. apply orb_true_r.
Qed.

Lemma filtering_section_all_selected_witness :
  df_filtered
    (filtering_section int_of_digits example_frame ∅
       (example_date 2024 3 1) (example_date 2024 1 1) true true true)
  = example_frame.
Proof.
  apply (filtering_section_all_selected int_of_digits example_frame ∅
           (example_date 2024 3 1) (example_date 2024 1 1) true true true).
  - intros d. destruct d; vm_compute; left.
  - left. reflexivity.
Defined.

(** X13: once the owner, lead-source, status or product selection has no
    "All", every lead of the result has a value in that column and the
    value is one of the selected ones; a lead whose cell is missing is
    never in the result. *)
Theorem concrete_selection_excludes_missing
    (int : string → option Z) (df : list lead) (ss : session)
    (date_from date_to : Raw.date) (a b c : bool) (d : dimension) (r : lead) :
  d ≠ Year →
  "All" ∉ init_selections filtering_keys ss !!! widget_key d →
  (r ∈ df_filtered (filtering_section int df ss date_from date_to a b c) →
   ∃ v, dimension_cell d r = Some v
        ∧ v ∈ init_selections filtering_keys ss !!! widget_key d)
  ∧ (dimension_cell d r = None →
     r ∉ df_filtered (filtering_section int df ss date_from date_to a b c)).
Proof.
  intros Hd Hall.
  assert (r ∈ df_filtered
                (filtering_section int df ss date_from date_to a b c) →
          ∃ v, dimension_cell d r = Some v
               ∧ v ∈ init_selections filtering_keys ss !!! widget_key d)
    as Hin.
  { rewrite filtering_section_filter, list_elem_of_filter.
    intros [Hkept _]. apply Is_true_true in Hkept. unfold lead_kept in Hkept.
    rewrite !andb_true_iff in Hkept.
    destruct Hkept as (((((_ & Ho) & Hs) & Ht) & Hp) & _).
    destruct d; [done| | | |]; cbn [dimension_cell widget_key] in *;
      by apply selection_keeps_concrete. }
  split; [exact Hin|].
  intros Hnone Hr. destruct (Hin Hr) as (v & Hv & _). congruence.
Qed.

Lemma concrete_selection_excludes_missing_witness :
  example_lead "CA" "Website" None
  ∉ df_filtered
      (filtering_section int_of_digits
         [example_lead "CA" "Website" None]
         (<["lead_status_selection" := ["New"]]> initial_session)
         (example_date 2024 1 1) (example_date 2024 12 31) true true true).
Proof.
  apply (concrete_selection_excludes_missing int_of_digits
           [example_lead "CA" "Website" None]
           (<["lead_status_selection" := ["New"]]> initial_session)
           (example_date 2024 1 1) (example_date 2024 12 31) true true true
           Lead_Status (example_lead "CA" "Website" None)).
  - discriminate.
  - apply (bool_decide_unpack _). vm_compute. exact I.
  - reflexivity.
Defined.

Lemma filtering_section_year_event int df ss date_from date_to a b c :
  sidebar_error invalid_year_message
    ∈ sidebar (filtering_section int df ss date_from date_to a b c)
  ↔ ("All" ∉ init_selections filtering_keys ss !!! "year_selection")
    ∧ mapM int (init_selections filtering_keys ss !!! "year_selection")
      = None.
Proof.
  unfold filtering_section. fold filtering_keys.
  set (ss' := init_selections filtering_keys ss).
  unfold year_filter.
  assert (sidebar_error invalid_year_message
          ∉ (if date_gtb date_from date_to
             then [sidebar_error invalid_range_message] else []))
    as Hrange.
  { destruct (date_gtb date_from date_to);
      [intros [=]%list_elem_of_singleton|apply not_elem_of_nil]. }
  destruct (str_in "All" (ss' !!! "year_selection")) eqn:Hall; cbn [negb].
  - apply str_in_true in Hall. cbn [sidebar].
    rewrite !elem_of_app, list_elem_of_singleton, elem_of_nil.
    split; [intros [?|[[]|[=]]]; done|intros [? _]; done].
  - apply str_in_false in Hall.
    destruct (mapM int (ss' !!! "year_selection")) as [years|];
      cbn [sidebar]; rewrite !elem_of_app, !list_elem_of_singleton.
    + rewrite elem_of_nil.
      split; [intros [?|[[]|[=]]]; done|intros [_ [=]]].
    + split; [done|]. intros _. right. left. reflexivity.
Qed.

Lemma init_selections_year_All (ss : session) :
  init_selections filtering_keys (<["year_selection" := ["All"]]> ss)
    !!! "year_selection" = ["All"]
  ∧ ∀ key, key ≠ "year_selection" →
      init_selections filtering_keys (<["year_selection" := ["All"]]> ss)
        !!! key
      = init_selections filtering_keys ss !!! key.
Proof.
  split.
  - rewrite lookup_total_alt, init_selections_lookup, lookup_insert_eq.
    by case_decide.
  - intros key Hne.
    rewrite !lookup_total_alt, !init_selections_lookup.
    by rewrite lookup_insert_ne.
Qed.

(** X14: the error for an invalid year selection is written exactly when
    the year selection has no "All" and [int] rejects one of its entries;
    the year filter is then skipped: the result is the one the same state
    gives with the year selection ["All"]. *)
Theorem invalid_year_selection_skips_filter
    (int : string → option Z) (df : list lead) (ss : session)
    (date_from date_to : Raw.date) (a b c : bool) :
  (sidebar_error invalid_year_message
     ∈ sidebar (filtering_section int df ss date_from date_to a b c)
   ↔ ("All" ∉ init_selections filtering_keys ss !!! "year_selection")
     ∧ mapM int (init_selections filtering_keys ss !!! "year_selection")
       = None)
  ∧ (sidebar_error invalid_year_message
       ∈ sidebar (filtering_section int df ss date_from date_to a b c) →
     df_filtered (filtering_section int df ss date_from date_to a b c)
     = df_filtered
         (filtering_section int df (<["year_selection" := ["All"]]> ss)
            date_from date_to a b c)).
Proof.
  split; [apply filtering_section_year_event|].
  intros [Hall Hint]%filtering_section_year_event.
  rewrite !filtering_section_filter. apply list_filter_iff. intros r.
  destruct (init_selections_year_All ss) as [Hyear Hother].
  unfold lead_kept, year_keeps.
  rewrite Hyear, !Hother by discriminate.
  rewrite Hint, orb_true_r. reflexivity.
Qed.

Lemma invalid_year_selection_skips_filter_witness :
  df_filtered
    (filtering_section int_of_digits example_frame
       (<["year_selection" := ["20x4"]]> initial_session)
       (example_date 2024 1 1) (example_date 2024 12 31) true true true)
  = df_filtered
      (filtering_section int_of_digits example_frame
         (<["year_selection" := ["All"]]>
            (<["year_selection" := ["20x4"]]> initial_session))
         (example_date 2024 1 1) (example_date 2024 12 31) true true true).
Proof.
  apply (invalid_year_selection_skips_filter int_of_digits example_frame
           (<["year_selection" := ["20x4"]]> initial_session)
           (example_date 2024 1 1) (example_date 2024 12 31) true true true).
  vm_compute. left.
Defined.

(** ** The two count tables *)

Lemma length_filter_pos_inv {A} (P : A → Prop) `{!∀ x, Decision (P x)}
    (l : list A) :
  0 < length (filter P l) → ∃ x, x ∈ l ∧ P x.
Proof.
  destruct (filter P l) as [|x l'] eqn:Hf; cbn [length]; [lia|]. intros _.
  assert (x ∈ filter P l) as [HP Hx]%list_elem_of_filter
    by (rewrite Hf; left).
  eauto.
Qed.

Section Grouping_rows.

Context `{Countable K}.

Lemma group_size_Some (keys : list (option K)) (k : K) (n : nat) :
  group_size keys !! k = Some n ↔ n = occurrences k keys ∧ 0 < n.
Proof.
  rewrite group_size_lookup. destruct (occurrences k keys); split.
  - discriminate.
  - intros [-> ?]. lia.
  - intros [= <-]. split; [reflexivity|lia].
  - by intros [-> _].
Qed.

Lemma occurrences_pos (keys : list (option K)) (k : K) :
  0 < occurrences k keys ↔ Some k ∈ keys.
Proof.
  unfold occurrences. split.
  - intros (x & Hx & ->)%length_filter_pos_inv. exact Hx.
  - intros Hin. by apply (length_filter_pos _ keys (Some k)).
Qed.

Lemma group_size_size (keys : list (option K)) :
  size (group_size keys) ≤ length keys.
Proof.
  induction keys as [|x keys IH]; cbn [group_size foldr length].
  { by rewrite map_size_empty. }
  fold (group_size keys). destruct x as [k|]; cbn [count_key]; [|lia].
  rewrite map_size_insert. destruct (group_size keys !! k); cbn; lia.
Qed.

End Grouping_rows.

Lemma canonical_lead_sources_size (m : gmap string nat) :
  (∀ s, is_Some (m !! s) → s ∈ canonical_lead_sources) → size m ≤ 6.
Proof.
  intros Hdom. rewrite <- (size_dom (D := gset string)).
  assert (size (list_to_set canonical_lead_sources : gset string) = 6)
    as <-.
  { rewrite size_list_to_set; [reflexivity|].
    apply (bool_decide_unpack _). vm_compute. exact I. }
  apply subseteq_size. intros s Hs%elem_of_dom.
  apply elem_of_list_to_set. auto.
Qed.

Lemma value_counts_has_row (column : list (option string)) s :
  is_Some (value_counts column !! s) ↔ Some s ∈ column.
Proof.
  unfold value_counts. rewrite <- occurrences_pos. split.
  - intros [n [-> Hn]%group_size_Some]. exact Hn.
  - intros Hpos. exists (occurrences s column). by apply group_size_Some.
Qed.

Lemma process_lead_records_sources records l :
  l ∈ process_lead_records records → LeadSource l ∈ canonical_lead_sources.
Proof.
  intros (r & _ & -> & _)%elem_of_process_lead_records.
  cbn [LeadSource assign_columns]. apply elem_of_canonical.
  destruct (Raw.LeadSource r) as [s|]; cbn [remap_one]; [|by right].
  destruct (str_in s ALLOWED_LEAD_SOURCES) eqn:Hin; [|by right].
  left. by apply str_in_true.
Qed.

(** X15: the rows of a count table are the values that occur in the
    column: a value has a row exactly when some lead has it, the count of
    a row is the number of those leads and is never 0, and the table has
    no more rows than the column has cells. *)
Theorem value_counts_rows (column : list (option string)) :
  (∀ s n, value_counts column !! s = Some n ↔
          n = length (filter (λ x, x = Some s) column) ∧ 0 < n)
  ∧ (∀ s, is_Some (value_counts column !! s) ↔ Some s ∈ column)
  ∧ size (value_counts column) ≤ length column.
Proof.
  unfold value_counts. split; [|split].
  - intros s n. apply group_size_Some.
  - intros s. apply value_counts_has_row.
  - apply group_size_size.
Qed.

(** X16: from any raw records, through any session state and dates, the
    lead-source table shown for the filtered frame has at most six rows
    and each is one of the six canonical sources. *)
Theorem lead_source_table_canonical
    (int : string → option Z) (records : list Raw.row) (ss : session)
    (date_from date_to : Raw.date) (a b c : bool) (t : analysis_tables) :
  lead_analysis_charts
    (df_filtered
       (filtering_section int (process_lead_records records) ss
          date_from date_to a b c)) = Some t →
  (∀ s, is_Some (lead_source_counts t !! s) → s ∈ canonical_lead_sources)
  ∧ size (lead_source_counts t) ≤ 6.
Proof.
  set (df := df_filtered _). intros Ht.
  assert (t = {| status_counts := value_counts (map Status df);
                 lead_source_counts :=
                   value_counts (map (λ r, Some (LeadSource r)) df) |})
    as -> by (destruct df; [discriminate|by injection Ht]).
  cbn [lead_source_counts].
  assert (∀ s, is_Some (value_counts (map (λ r, Some (LeadSource r)) df)
                          !! s) → s ∈ canonical_lead_sources) as Hdom.
  { intros s Hs. apply value_counts_has_row in Hs.
    apply list_elem_of_fmap in Hs as (r & [= ->] & Hr).
    unfold df in Hr. rewrite filtering_section_filter in Hr.
    apply list_elem_of_filter in Hr as [_ Hr].
    by apply (process_lead_records_sources records). }
  split; [exact Hdom|by apply canonical_lead_sources_size].
Qed.

(** ** The rows of the per-state table *)

Lemma ensure_columns_columns (fr : frame nat) (sources : list string) :
  ∀ src, src ∈ columns (foldl ensure_column fr sources)
         ↔ src ∈ columns fr ∨ src ∈ sources.
Proof.
  revert fr. induction sources as [|source sources IH]; intros fr src;
    cbn [foldl].
  { rewrite elem_of_nil. tauto. }
  rewrite IH, elem_of_cons. unfold ensure_column.
  case_bool_decide as Hin; cbn [columns].
  - split; [tauto|]. intros [?|[->|?]]; auto.
  - rewrite elem_of_union, elem_of_singleton. tauto.
Qed.

Lemma displayed_counts_source df st src :
  is_Some (displayed_counts df !! (st, src)) →
  src ∈ SPECIFIC_LEAD_SOURCES ∧ 0 < state_source_count st src df.
Proof.
  rewrite displayed_counts_lookup. case_decide; [|by intros [? ?]].
  destruct (state_source_count st src df); [by intros [? ?]|].
  intros _. split; [done|lia].
Qed.

Lemma us_map_columns df src :
  src ∈ columns (foldl ensure_column (fillna0 (pivot (displayed_counts df)))
                   SPECIFIC_LEAD_SOURCES)
  ↔ src ∈ SPECIFIC_LEAD_SOURCES.
Proof.
  rewrite ensure_columns_columns. split; [|auto].
  intros [Hcol|?]; [|done].
  cbn [fillna0 pivot columns] in Hcol.
  apply elem_of_map in Hcol as ([st src'] & -> & Hdom).
  apply elem_of_dom in Hdom.
  apply displayed_counts_source in Hdom as [Hin _]. exact Hin.
Qed.

Lemma us_map_row_inv df st row :
  us_map_visualization df !! st = Some row →
  (∃ r, r ∈ df ∧ LeadState r = Some st
        ∧ LeadSource r ∈ SPECIFIC_LEAD_SOURCES)
  ∧ (∀ src, source_counts row !! src
            = if decide (src ∈ SPECIFIC_LEAD_SOURCES)
              then Some (state_source_count st src df) else None)
  ∧ Total row = Some (state_count st df)
  ∧ 0 < state_count st df
  ∧ state_names !! st = Some (State_Name row)
  ∧ state_centroid row = state_centroids !! st.
Proof.
  rewrite us_map_visualization_lookup.
  destruct (frame_for_ensure_columns (displayed_counts df)
              SPECIFIC_LEAD_SOURCES _ (frame_for_pivot (displayed_counts df)))
    as ((Hrows & _ & Hcells) & _ & _).
  destruct (rows _ !! st) as [counts|] eqn:Hcounts; [|discriminate].
  cbn [mbind option_bind]. fold state_names state_centroids.
  destruct (state_names !! st) as [name|] eqn:Hname; [|discriminate].
  cbn [mbind option_bind]. intros [= <-].
  cbn [source_counts Total State_Name state_centroid].
  assert (∃ src, is_Some (displayed_counts df !! (st, src)))
    as [src0 [Hsrc0 Hpos0]%displayed_counts_source] by (apply Hrows; eauto).
  apply length_filter_pos_inv in Hpos0 as (r & Hr & Hst & Hsrc).
  assert (0 < state_count st df) as Hpos
    by (by apply (length_filter_pos _ df r)).
  split; [exists r; by rewrite Hsrc|].
  split.
  { intros src. rewrite (Hcells st counts Hcounts).
    destruct (decide (src ∈ SPECIFIC_LEAD_SOURCES)) as [Hin|Hout].
    - rewrite decide_True by (by apply us_map_columns). f_equal.
      rewrite displayed_counts_lookup, decide_True by done.
      by destruct (state_source_count st src df).
    - rewrite decide_False; [reflexivity|]. by rewrite us_map_columns. }
  split.
  { rewrite group_size_lookup, occurrences_state.
    destruct (state_count st df); [lia|reflexivity]. }
  done.
Qed.

(** X17: every row of the per-state table belongs to a state that has a
    lead of a displayed source; it has exactly the four displayed source
    columns, each with the number of the state's leads of that source; its
    total is never missing: it is the number of all leads of the state, is
    positive and is at least the sum of the four counts; its name and
    centroid are those of the two dicts. *)
Theorem us_map_rows_complete (df : list lead) (st : string) (row : state_row) :
  us_map_visualization df !! st = Some row →
  (∃ r, r ∈ df ∧ LeadState r = Some st
        ∧ LeadSource r ∈ SPECIFIC_LEAD_SOURCES)
  ∧ dom (source_counts row) = list_to_set SPECIFIC_LEAD_SOURCES
  ∧ (∀ src, src ∈ SPECIFIC_LEAD_SOURCES →
            source_counts row !! src = Some (state_source_count st src df))
  ∧ Total row = Some (state_count st df)
  ∧ 0 < state_count st df
  ∧ state_source_count st "Google Leads - Website" df
    + state_source_count st "Website" df
    + state_source_count st "Indeed" df
    + state_source_count st "Other" df ≤ state_count st df
  ∧ state_names !! st = Some (State_Name row)
  ∧ state_centroid row = state_centroids !! st.
Proof.
  intros (Hlead & Hcells & Htotal & Hpos & Hname & Hcentroid)%us_map_row_inv.
  split; [exact Hlead|]. split.
  { apply set_eq. intros src.
    rewrite elem_of_dom, elem_of_list_to_set, Hcells.
    case_decide; split; (done || eauto || by intros [? ?]). }
  split.
  { intros src Hin. by rewrite Hcells, decide_True. }
  split; [exact Htotal|]. split; [exact Hpos|].
  split; [rewrite (state_count_split st df); lia|done].
Qed.

Lemma us_map_rows_complete_witness :
  ∃ row, us_map_visualization referral_frame !! "TX" = Some row
         ∧ dom (source_counts row) = list_to_set SPECIFIC_LEAD_SOURCES
         ∧ Total row = Some (state_count "TX" referral_frame).
Proof.
  destruct (us_map_visualization referral_frame !! "TX") as [row|] eqn:Hrow.
  - exists row. split; [reflexivity|].
    destruct (us_map_rows_complete referral_frame "TX" row Hrow)
      as (_ & Hdom & _ & Htotal & _).
    split; [exact Hdom|exact Htotal].
  - vm_compute in Hrow. discriminate.
Defined.

(** X18: for a frame of processed leads the name is never missing: a
    state has a row exactly when it has a lead of a displayed source; and
    the centroid of a row is missing exactly for "DC" (which resolves only
    from the full name and is not in [STATE_CENTROIDS]). *)
Theorem us_map_of_processed_leads
    (records : list Raw.row) (df : list lead) (st : string) :
  (∀ l, l ∈ df → l ∈ process_lead_records records) →
  (is_Some (us_map_visualization df !! st)
   ↔ ∃ r, r ∈ df ∧ LeadState r = Some st
          ∧ LeadSource r ∈ SPECIFIC_LEAD_SOURCES)
  ∧ ∀ row, us_map_visualization df !! st = Some row →
           (state_centroid row = None ↔ st = "DC").
Proof.
  intros Hdf.
  assert (∀ r, r ∈ df → LeadState r = Some st →
               st ∈ STATE_ABBREVIATIONS ∨ st = "DC") as Hcases.
  { intros r Hr Hst.
    apply Hdf, elem_of_process_lead_records in Hr as (r0 & _ & -> & _).
    by apply (determine_state_code_cases r0). }
  split.
  - split.
    + intros [row Hrow]. by apply us_map_row_inv in Hrow as (Hlead & _).
    + intros (r & Hr & Hst & Hsrc).
      destruct (resolved_code_has_name st (Hcases r Hr Hst)) as [name Hn].
      destruct (us_map_row_of_displayed_state df st name r Hr Hst Hsrc Hn)
        as (row & Hrow & _).
      by rewrite Hrow.
  - intros row Hrow.
    apply us_map_row_inv in Hrow
      as ((r & Hr & Hst & _) & _ & _ & _ & _ & ->).
    apply resolved_code_centroid. by apply (Hcases r).
Qed.

Lemma us_map_of_processed_leads_witness :
  is_Some
    (us_map_visualization
       (process_lead_records
          [example_row (Some "Washington D.C.") None None
                       (Some "Website") (Some "New")]) !! "DC")
  ↔ ∃ r, r ∈ process_lead_records
               [example_row (Some "Washington D.C.") None None
                            (Some "Website") (Some "New")]
         ∧ LeadState r = Some "DC"
         ∧ LeadSource r ∈ SPECIFIC_LEAD_SOURCES.
Proof.
  apply (us_map_of_processed_leads
           [example_row (Some "Washington D.C.") None None
                        (Some "Website") (Some "New")]).
  intros l Hl. exact Hl.
Defined.

(** ** The monthly distribution *)

Lemma sum_by_month_insert_fresh (counts : gmap (string * string) nat) k v :
  counts !! k = None →
  sum_by_month (<[k := v]> counts)
  = <[fst k := v + default 0 (sum_by_month counts !! fst k)]>
      (sum_by_month counts).
Proof.
  intros Hk. unfold sum_by_month.
  rewrite map_fold_insert_L; [reflexivity| |exact Hk].
  intros [a1 b1] [a2 b2] n1 n2 totals _ _ _. cbn [fst].
  destruct (decide (a1 = a2)) as [->|Hne].
  - rewrite !lookup_insert_eq, !insert_insert_eq. cbn [default from_option id].
    f_equal. lia.
  - rewrite !lookup_insert_ne by done. by apply insert_insert_ne.
Qed.

Lemma sum_by_month_group_size (keys : list (option (string * string))) m :
  sum_by_month (group_size keys) !! m
  = match month_occurrences m keys with 0 => None | S n => Some (S n) end.
Proof.
  unfold month_occurrences.
  induction keys as [|x keys IH]; [reflexivity|].
  cbn [group_size foldr]. fold (group_size keys). rewrite filter_cons.
  destruct x as [[a b]|]; cbn [count_key fmap option_fmap option_map fst].
  2: { rewrite decide_False by discriminate. exact IH. }
  set (G := group_size keys) in *.
  destruct (G !! (a, b)) as [x|] eqn:Hk; cbn [default from_option id].
  - (* the group exists: take it out, then put it back with one more *)
    assert (delete (a, b) G !! (a, b) = None) as Hdel
      by apply lookup_delete_eq.
    assert (sum_by_month G
            = <[a := x + default 0 (sum_by_month (delete (a, b) G) !! a)]>
                (sum_by_month (delete (a, b) G))) as HG.
    { rewrite <- (insert_delete_id G (a, b) x) at 1 by done.
      by rewrite sum_by_month_insert_fresh. }
    rewrite <- insert_delete_eq, sum_by_month_insert_fresh by done.
    cbn [fst]. rewrite HG in IH.
    destruct (decide (a = m)) as [->|Hne].
    + rewrite decide_True by reflexivity. cbn [length].
      rewrite lookup_insert_eq in IH. rewrite lookup_insert_eq.
      destruct (length _); [discriminate|]. injection IH as IH.
      f_equal. lia.
    + rewrite decide_False by congruence.
      rewrite lookup_insert_ne in IH by done.
      by rewrite lookup_insert_ne.
  - rewrite sum_by_month_insert_fresh by done. cbn [fst].
    destruct (decide (a = m)) as [->|Hne].
    + rewrite decide_True by reflexivity. cbn [length].
      rewrite lookup_insert_eq, IH. by destruct (length _).
    + rewrite decide_False by congruence.
      by rewrite lookup_insert_ne.
Qed.

Lemma occurrences_le_month (keys : list (option (string * string))) m s :
  occurrences (m, s) keys ≤ month_occurrences m keys.
Proof.
  unfold occurrences, month_occurrences.
  induction keys as [|x keys IH]; [reflexivity|]. rewrite !filter_cons.
  destruct (decide (x = Some (m, s))) as [->|Hne].
  - rewrite decide_True by reflexivity. cbn [length]. lia.
  - destruct (decide (fst <$> x = Some m)); cbn [length]; lia.
Qed.

(** X19: each bar of the monthly chart has the number of leads of its
    month and status, which is not 0, and the total of its month; the
    total of a month is the number of leads created in that month that
    have a status, so no bar is longer than its total; the annotations
    are these totals, one for each month that has a bar.  An empty frame
    gives no chart. *)
Theorem monthly_chart_totals (df : list lead) :
  match monthly_lead_distribution_chart df with
  | None => df = []
  | Some chart =>
      (∀ m s count total,
         df_monthly chart !! (m, s) = Some (count, total) ↔
         count = occurrences (m, s) (map month_status_key df)
         ∧ 0 < count
         ∧ total = month_occurrences m (map month_status_key df))
      ∧ (∀ m s count total,
           df_monthly chart !! (m, s) = Some (count, total) →
           count ≤ total ∧ df_month_totals chart !! m = Some total)
      ∧ (∀ m total,
           df_month_totals chart !! m = Some total ↔
           total = month_occurrences m (map month_status_key df)
           ∧ 0 < total)
  end.
Proof.
  destruct df as [|r0 df0]; [reflexivity|].
  set (df := r0 :: df0). cbn [monthly_lead_distribution_chart].
  fold df. cbn [df_monthly df_month_totals].
  set (keys := map month_status_key df).
  assert (∀ m total,
            sum_by_month (group_size keys) !! m = Some total ↔
            total = month_occurrences m keys ∧ 0 < total) as Htotals.
  { intros m total. rewrite sum_by_month_group_size.
    destruct (month_occurrences m keys); split.
    - discriminate.
    - intros [-> ?]. lia.
    - intros [= <-]. split; [reflexivity|lia].
    - by intros [-> _]. }
  assert (∀ m s count total,
            map_imap (λ k n, total ← sum_by_month (group_size keys) !! fst k;
                             Some (n, total)) (group_size keys) !! (m, s)
            = Some (count, total) ↔
            count = occurrences (m, s) keys ∧ 0 < count
            ∧ total = month_occurrences m keys) as Hbars.
  { intros m s count total. rewrite map_lookup_imap. cbn [fst].
    pose proof (occurrences_le_month keys m s) as Hle. split.
    - destruct (group_size keys !! (m, s)) as [n|] eqn:Hn;
        cbn [mbind option_bind]; [|discriminate].
      apply group_size_Some in Hn as [-> Hpos].
      destruct (sum_by_month (group_size keys) !! m) as [t|] eqn:Ht;
        cbn [mbind option_bind]; [|discriminate].
      apply Htotals in Ht as [-> _]. by intros [= <- <-].
    - intros (-> & Hpos & ->).
      rewrite (proj2 (group_size_Some keys (m, s) _) (conj eq_refl Hpos)).
      cbn [mbind option_bind].
      rewrite (proj2 (Htotals m (month_occurrences m keys)))
        by (split; [reflexivity|lia]).
      reflexivity. }
  split; [exact Hbars|]. split; [|exact Htotals].
  intros m s count total (-> & Hpos & ->)%Hbars.
  pose proof (occurrences_le_month keys m s) as Hle.
  split; [exact Hle|]. apply Htotals. split; [reflexivity|lia].
Qed.

Lemma monthly_chart_totals_witness :
  match monthly_lead_distribution_chart example_frame with
  | None => example_frame = []
  | Some chart =>
      1 ≤ 1 ∧ df_month_totals chart !! "March" = Some 1
  end.
Proof.
  pose proof (monthly_chart_totals example_frame) as Hchart.
  destruct (monthly_lead_distribution_chart example_frame) as [chart|];
    [|exact Hchart].
  destruct Hchart as (Hbars & Hle & _).
  apply (Hle "March" "Closed" 1 1). apply Hbars.
  vm_compute. repeat split; lia.
Defined.

(** ** Login, data loading and the main flow *)

Lemma truthy_error_message e :
  truthy (String.append "An error occurred: " e) = true.
Proof. reflexivity. Qed.

Ltac not_in_events :=
  let Hin := fresh "Hin" in
  intros Hin;
  repeat (apply elem_of_cons in Hin as [Hin|Hin]; [discriminate Hin|]);
  by apply elem_of_nil in Hin.

Ltac in_events :=
  repeat first [apply list_elem_of_here | apply list_elem_of_further].

(** An equivalence between a membership in an explicit list of events and
    a conjunction of explicit equations. *)
Ltac event_iff :=
  split;
  [ first [ by (intros _; repeat split)
          | (let Hin := fresh in intros Hin; exfalso; revert Hin;
             not_in_events) ]
  | first [ by (intros _; in_events)
          | (let Hc := fresh in intros Hc; exfalso;
             decompose [and] Hc; congruence) ] ].

Lemma show_login_message_empty balloons st :
  login_message st = "" → show_login_message balloons st = ([], st).
Proof.
  intros Hmsg. unfold show_login_message. by rewrite Hmsg.
Qed.

Lemma authentication_section_spec st u p t pressed outcome ev st' :
  login_invariant st →
  authentication_section st u p t pressed outcome = (ev, st') →
  login_invariant st'
  ∧ (st_balloons ∉ ev)
  ∧ (logger_info fetching_message ∉ ev)
  ∧ (st_warning no_data_message ∉ ev)
  ∧ lead_data st' = lead_data st
  ∧ (logged_in st = true → st' = st ∧ ev = [])
  ∧ (logger_info attempt_message ∈ ev
     ↔ logged_in st = false ∧ pressed = true
       ∧ truthy u && truthy p && truthy t = true)
  ∧ (st_warning credentials_message ∈ ev
     ↔ logged_in st = false ∧ pressed = true
       ∧ truthy u && truthy p && truthy t = false)
  ∧ (logged_in st' = true ↔
     logged_in st = true
     ∨ (pressed = true ∧ truthy u && truthy p && truthy t = true
        ∧ ∃ sid inst, outcome = login_ok sid inst)).
Proof.
  destruct st as [li s ld msg succ]. unfold login_invariant.
  cbn [login_message login_success logged_in sf lead_data].
  intros (-> & -> & Hsf). unfold authentication_section.
  cbn [logged_in]. destruct li; cbn [negb].
  { intros [= <- <-].
    cbn [login_message login_success logged_in sf lead_data].
    split; [done|]. split; [apply not_elem_of_nil|].
    split; [apply not_elem_of_nil|]. split; [apply not_elem_of_nil|].
    split; [done|]. split; [done|].
    split; [event_iff|]. split; [event_iff|]. split; [auto|done]. }
  assert (s = None) as ->.
  { destruct s; [|done].
    assert (false = true) by (apply Hsf; eauto). done. }
  destruct pressed;
    [destruct (truthy u && truthy p && truthy t) eqn:Hcreds;
     [destruct outcome as [sid inst| |e]|]|];
    unfold handle_login, show_login_message;
    cbn [login_message login_success logged_in sf lead_data];
    rewrite ?truthy_error_message;
    cbn [truthy String.eqb negb Ascii.eqb Bool.eqb app];
    intros [= <- <-];
    cbn [login_message login_success logged_in sf lead_data];
    (split; [repeat split; (done || eauto || by intros [? ?])|]);
    (split; [not_in_events|]); (split; [not_in_events|]);
    (split; [not_in_events|]);
    (split; [done|]); (split; [done|]);
    (split; [event_iff|]); (split; [event_iff|]).
  - split; eauto 10.
  - split; [done|]. intros [?|(_ & _ & ? & ? & ?)]; done.
  - split; [done|]. intros [?|(_ & _ & ? & ? & ?)]; done.
  - split; [done|]. intros [?|(_ & ? & _)]; done.
  - split; [done|]. intros [?|(? & _)]; done.
Qed.

Lemma fetch_lead_data_spec st query ev st' :
  fetch_lead_data st query = (ev, st') →
  logged_in st' = logged_in st ∧ sf st' = sf st
  ∧ login_message st' = login_message st
  ∧ login_success st' = login_success st
  ∧ (st_balloons ∉ ev)
  ∧ (logger_info attempt_message ∉ ev)
  ∧ (st_warning credentials_message ∉ ev)
  ∧ (st_warning no_data_message ∉ ev)
  ∧ (∀ df, lead_data st = Some df → ev = [] ∧ st' = st)
  ∧ (lead_data st = None →
     logger_info fetching_message ∈ ev
     ∧ lead_data st'
       = match query with
         | query_records records => fetch_and_process_lead_data None records
         | query_exception _ => None
         end).
Proof.
  unfold fetch_lead_data. destruct (lead_data st) as [df|] eqn:Hld.
  { intros [= <- <-]. do 4 (split; [done|]).
    do 4 (split; [apply not_elem_of_nil|]).
    split; [by intros ? _|discriminate]. }
  destruct query as [records|e];
    [destruct (fetch_and_process_lead_data None records) as [df|] eqn:Hf|];
    intros [= <- <-];
    cbn [login_message login_success logged_in sf lead_data];
    do 4 (split; [done|]); do 4 (split; [not_in_events|]);
    (split; [discriminate|]); intros _; (split; [in_events|done]).
Qed.

(** The three ways a run of [main] goes: the login form only; the
    dashboard; the notice that there is no data. *)
Lemma main_cases int st ss inp :
  ∃ auth_events st1,
    authentication_section st (username inp) (password inp)
      (security_token inp) (login_pressed inp) (login_result inp)
    = (auth_events, st1)
    ∧ ((logged_in st1 = false
        ∧ main int st ss inp
          = {| events := auth_events; state_after := st1;
               selections_after := init_selections main_keys ss;
               shown := None |})
       ∨ (logged_in st1 = true
          ∧ ∃ message_events st2 fetch_events st3,
              show_login_message true st1 = (message_events, st2)
              ∧ match lead_data st2 with
                | None => fetch_lead_data st2 (query_result inp)
                | Some _ => ([], st2)
                end = (fetch_events, st3)
              ∧ ((∃ r df,
                    lead_data st3 = Some (r :: df)
                    ∧ main int st ss inp
                      = {| events :=
                             auth_events ++ message_events ++ fetch_events
                               ++ [st_success "Data loaded successfully!"];
                           state_after := st3;
                           selections_after :=
                             session_after
                               (filtering
                                  (render_dashboard int (r :: df)
                                     (init_selections main_keys ss) inp));
                           shown :=
                             Some (render_dashboard int (r :: df)
                                     (init_selections main_keys ss) inp) |})
                 ∨ ((lead_data st3 = None ∨ lead_data st3 = Some [])
                    ∧ main int st ss inp
                      = {| events :=
                             auth_events ++ message_events ++ fetch_events
                               ++ [st_warning no_data_message];
                           state_after := st3;
                           selections_after := init_selections main_keys ss;
                           shown := None |})))).
Proof.
  unfold main.
  destruct (authentication_section _ _ _ _ _ _) as [auth_events st1].
  exists auth_events, st1. split; [reflexivity|].
  destruct (logged_in st1); [right|left; done].
  split; [reflexivity|].
  destruct (show_login_message true st1) as [message_events st2] eqn:Hmsg.
  destruct (match lead_data st2 with
            | None => fetch_lead_data st2 (query_result inp)
            | Some _ => ([], st2)
            end) as [fetch_events st3] eqn:Hfetch.
  exists message_events, st2, fetch_events, st3.
  split; [reflexivity|]. split; [exact Hfetch|].
  destruct (lead_data st3) as [[|r df]|] eqn:Hld.
  - right. split; [by right|reflexivity].
  - left. exists r, df. split; reflexivity.
  - right. split; [by left|reflexivity].
Qed.

(** The step after the login message of a run in which the user is logged
    in: the data is fetched if it is not there. *)
Lemma fetch_step_spec st query ev st' :
  match lead_data st with
  | None => fetch_lead_data st query
  | Some _ => ([], st)
  end = (ev, st') →
  fetch_lead_data st query = (ev, st').
Proof.
  unfold fetch_lead_data. by destruct (lead_data st).
Qed.

Lemma main_login_step int st ss inp :
  login_invariant st →
  login_invariant (state_after (main int st ss inp))
  ∧ (st_balloons ∉ events (main int st ss inp))
  ∧ (logged_in st = true →
     logged_in (state_after (main int st ss inp)) = true
     ∧ sf (state_after (main int st ss inp)) = sf st)
  ∧ (logger_info attempt_message ∈ events (main int st ss inp)
     ↔ logged_in st = false ∧ login_pressed inp = true
       ∧ credentials_given inp = true)
  ∧ (st_warning credentials_message ∈ events (main int st ss inp)
     ↔ logged_in st = false ∧ login_pressed inp = true
       ∧ credentials_given inp = false)
  ∧ (logged_in (state_after (main int st ss inp)) = true ↔
     logged_in st = true
     ∨ (login_pressed inp = true ∧ credentials_given inp = true
        ∧ ∃ sid inst, login_result inp = login_ok sid inst)).
Proof.
  intros Hinv.
  destruct (main_cases int st ss inp) as (auth_events & st1 & Hauth & Hmain).
  apply (authentication_section_spec _ _ _ _ _ _ _ _ Hinv) in Hauth
    as (Hinv1 & Hb1 & _ & _ & _ & Hsame & Hattempt & Hwarn & Hlogged).
  fold (credentials_given inp) in Hattempt, Hwarn, Hlogged.
  destruct Hmain as [[Hli ->]|(Hli & message_events & st2 & fetch_events
                                  & st3 & Hmsg & Hfetch & Hmain)].
  { cbn [events state_after]. split; [done|]. split; [done|].
    split; [|done]. intros Hst. by destruct (Hsame Hst) as [-> _]. }
  rewrite show_login_message_empty in Hmsg by apply Hinv1.
  injection Hmsg as <- <-.
  apply fetch_step_spec, fetch_lead_data_spec in Hfetch
    as (Hli3 & Hsf3 & Hm3 & Hs3 & Hb3 & Ha3 & Hw3 & _).
  assert (login_invariant st3) as Hinv3.
  { destruct Hinv1 as (? & ? & ?). unfold login_invariant.
    by rewrite Hm3, Hs3, Hli3, Hsf3. }
  assert (∀ e last_event,
            e ≠ last_event → e ∉ fetch_events →
            (e ∈ auth_events ++ [] ++ fetch_events ++ [last_event]
             ↔ e ∈ auth_events)) as Hevents.
  { intros e last_event Hne Hnot.
    rewrite !elem_of_app, elem_of_nil, list_elem_of_singleton. tauto. }
  destruct Hmain as [(r & df & _ & ->)|[_ ->]]; cbn [events state_after];
    rewrite !Hevents by done; rewrite Hli3;
    (split; [done|]); (split; [done|]);
    (split; [|done]); intros Hst; destruct (Hsame Hst) as [-> _];
    (split; [done|exact Hsf3]).
Qed.

Lemma reachable_login_invariant int st :
  reachable_state int st → login_invariant st.
Proof.
  induction 1 as [|st ss inp _ IH].
  - repeat split; try done. by intros [? ?].
  - by apply main_login_step.
Qed.

Lemma main_data_step int st ss inp :
  login_invariant st →
  (∀ df, lead_data st = Some df →
         lead_data (state_after (main int st ss inp)) = Some df)
  ∧ (logger_info fetching_message ∈ events (main int st ss inp)
     ↔ logged_in (state_after (main int st ss inp)) = true
       ∧ lead_data st = None)
  ∧ (logged_in (state_after (main int st ss inp)) = true →
     lead_data st = None →
     lead_data (state_after (main int st ss inp))
     = match query_result inp with
       | query_records records => fetch_and_process_lead_data None records
       | query_exception _ => None
       end)
  ∧ (∀ board, shown (main int st ss inp) = Some board ↔
       logged_in (state_after (main int st ss inp)) = true
       ∧ ∃ r df, lead_data (state_after (main int st ss inp))
                 = Some (r :: df)
                 ∧ board = render_dashboard int (r :: df)
                             (init_selections main_keys ss) inp)
  ∧ (st_warning no_data_message ∈ events (main int st ss inp)
     ↔ logged_in (state_after (main int st ss inp)) = true
       ∧ (lead_data (state_after (main int st ss inp)) = None
          ∨ lead_data (state_after (main int st ss inp)) = Some [])).
Proof.
  intros Hinv.
  destruct (main_cases int st ss inp) as (auth_events & st1 & Hauth & Hmain).
  apply (authentication_section_spec _ _ _ _ _ _ _ _ Hinv) in Hauth
    as (Hinv1 & _ & Hf1 & Hnd1 & Hld1 & _ & _ & Hw1 & _).
  destruct Hmain as [[Hli ->]|(Hli & message_events & st2 & fetch_events
                                  & st3 & Hmsg & Hfetch & Hmain)].
  { cbn [events state_after shown]. rewrite Hli.
    split; [intros df; by rewrite Hld1|].
    split; [split; [done|by intros [? _]]|]. split; [done|].
    split; [intros board; split; [done|by intros [? _]]|].
    split; [done|by intros [? _]]. }
  rewrite show_login_message_empty in Hmsg by apply Hinv1.
  injection Hmsg as <- <-.
  apply fetch_step_spec, fetch_lead_data_spec in Hfetch
    as (Hli3 & _ & _ & _ & _ & _ & _ & Hnd3 & Hcached & Hfetched).
  rewrite Hld1 in Hcached, Hfetched.
  assert (logged_in st3 = true) as Hli3' by congruence.
  assert (∀ e last_event,
            e ≠ last_event → e ∉ auth_events →
            (e ∈ auth_events ++ [] ++ fetch_events ++ [last_event]
             ↔ e ∈ fetch_events)) as Hevents.
  { intros e last_event Hne Hnot.
    rewrite !elem_of_app, elem_of_nil, list_elem_of_singleton. tauto. }
  assert (logger_info fetching_message ∈ fetch_events
          ↔ lead_data st = None) as Hfetching.
  { destruct (lead_data st) as [df|] eqn:Hld.
    - destruct (Hcached df eq_refl) as [-> _].
      split; [by intros ?%elem_of_nil|done].
    - split; [done|]. intros _. by apply Hfetched. }
  assert (∀ df, lead_data st = Some df → lead_data st3 = Some df) as Hkeep.
  { intros df Hld. destruct (Hcached df Hld) as [_ ->]. by rewrite Hld1. }
  destruct Hmain as [(r & df & Hld3 & ->)|[Hld3 ->]];
    cbn [events state_after shown]; rewrite Hli3'.
  - split; [exact Hkeep|]. rewrite Hevents by done.
    split; [rewrite Hfetching; tauto|].
    split; [intros _ Hnone; by apply Hfetched|].
    split.
    { intros board. split.
      - intros [= <-]. split; [done|]. exists r, df. by rewrite Hld3.
      - intros (_ & r' & df' & Heq & ->). rewrite Hld3 in Heq.
        by injection Heq as <- <-. }
    split.
    + rewrite !elem_of_app, elem_of_nil, list_elem_of_singleton.
      intros [?|[[]|[?|[=]]]]; done.
    + rewrite Hld3. intros [_ [?|?]]; done.
  - split; [exact Hkeep|]. rewrite Hevents by done.
    split; [rewrite Hfetching; tauto|].
    split; [intros _ Hnone; by apply Hfetched|].
    split.
    { intros board. split; [done|].
      intros (_ & r' & df' & Heq & _). destruct Hld3; congruence. }
    split; [done|]. intros _.
    rewrite !elem_of_app, list_elem_of_singleton. auto.
Qed.

(** X20: in every state a session can reach the login message is empty
    and the success flag is off: a message set by a login attempt is shown
    once, in the login form of the same run, and cleared there.  So the
    balloons that [main] adds to a success message in the dashboard are
    never shown.  There is no way back from being logged in, and the user
    is logged in exactly when the connection is stored. *)
Theorem login_message_cleared_each_run
    (int : string → option Z) (st : app_state) (ss : session)
    (inp : run_inputs) :
  reachable_state int st →
  login_message st = "" ∧ login_success st = false
  ∧ (logged_in st = true ↔ is_Some (sf st))
  ∧ (st_balloons ∉ events (main int st ss inp))
  ∧ (logged_in st = true →
     logged_in (state_after (main int st ss inp)) = true
     ∧ sf (state_after (main int st ss inp)) = sf st).
Proof.
  intros Hinv%reachable_login_invariant.
  destruct (main_login_step int st ss inp Hinv) as (_ & Hb & Hstay & _).
  destruct Hinv as (Hm & Hs & Hsf). done.
Qed.

Lemma login_message_cleared_each_run_witness :
  login_message
    (state_after
       (main int_of_digits initial_app_state ∅
          (example_inputs (login_ok "sid" "na1") (query_records [])))) = ""
  ∧ st_balloons
    ∉ events
        (main int_of_digits
           (state_after
              (main int_of_digits initial_app_state ∅
                 (example_inputs (login_ok "sid" "na1") (query_records []))))
           ∅ (example_inputs (login_ok "sid" "na1") (query_records []))).
Proof.
  assert (reachable_state int_of_digits
            (state_after
               (main int_of_digits initial_app_state ∅
                  (example_inputs (login_ok "sid" "na1")
                                  (query_records [])))))
    as Hreach by (apply reachable_state_run, reachable_state_initial).
  split.
  - by apply (login_message_cleared_each_run int_of_digits _ ∅
                (example_inputs (login_ok "sid" "na1") (query_records []))).
  - by apply (login_message_cleared_each_run int_of_digits _ ∅
                (example_inputs (login_ok "sid" "na1") (query_records []))).
Defined.

(** X21: the login call is made in a run exactly when the user is not
    logged in, presses Login and has typed all three credentials; with a
    credential missing the warning is shown instead and no call is made;
    and the user is logged in after a run exactly when they were before it
    or the call of this run succeeded. *)
Theorem login_attempt_needs_credentials
    (int : string → option Z) (st : app_state) (ss : session)
    (inp : run_inputs) :
  reachable_state int st →
  (logger_info attempt_message ∈ events (main int st ss inp)
   ↔ logged_in st = false ∧ login_pressed inp = true
     ∧ credentials_given inp = true)
  ∧ (st_warning credentials_message ∈ events (main int st ss inp)
     ↔ logged_in st = false ∧ login_pressed inp = true
       ∧ credentials_given inp = false)
  ∧ (logged_in (state_after (main int st ss inp)) = true ↔
     logged_in st = true
     ∨ (login_pressed inp = true ∧ credentials_given inp = true
        ∧ ∃ sid inst, login_result inp = login_ok sid inst)).
Proof.
  intros Hinv%reachable_login_invariant.
  destruct (main_login_step int st ss inp Hinv)
    as (_ & _ & _ & Hattempt & Hwarn & Hlogged).
  done.
Qed.

Lemma login_attempt_needs_credentials_witness :
  logged_in
    (state_after
       (main int_of_digits initial_app_state ∅
          (example_inputs login_authentication_failed (query_records []))))
  = true
  ↔ logged_in initial_app_state = true
    ∨ (login_pressed
         (example_inputs login_authentication_failed (query_records []))
       = true
       ∧ credentials_given
           (example_inputs login_authentication_failed (query_records []))
         = true
       ∧ ∃ sid inst,
           login_result
             (example_inputs login_authentication_failed (query_records []))
           = login_ok sid inst).
Proof.
  apply (login_attempt_needs_credentials int_of_digits initial_app_state ∅
           (example_inputs login_authentication_failed (query_records []))).
  apply reachable_state_initial.
Defined.

(** X22: the leads are fetched at most once: the query is made in a run
    exactly when the user is logged in and no frame is stored, and a
    stored frame is never replaced, even an empty one.  The dashboard is
    shown exactly when the user is logged in and the stored frame has a
    lead, and it is the dashboard of that frame; otherwise a logged-in
    user gets the notice that there is no data. *)
Theorem lead_data_fetched_once
    (int : string → option Z) (st : app_state) (ss : session)
    (inp : run_inputs) :
  reachable_state int st →
  (∀ df, lead_data st = Some df →
         lead_data (state_after (main int st ss inp)) = Some df
         ∧ (logger_info fetching_message ∉ events (main int st ss inp)))
  ∧ (logger_info fetching_message ∈ events (main int st ss inp)
     ↔ logged_in (state_after (main int st ss inp)) = true
       ∧ lead_data st = None)
  ∧ (logged_in (state_after (main int st ss inp)) = true →
     lead_data st = None →
     lead_data (state_after (main int st ss inp))
     = match query_result inp with
       | query_records [] => None
       | query_records records => Some (process_lead_records records)
       | query_exception _ => None
       end)
  ∧ (∀ board, shown (main int st ss inp) = Some board ↔
       logged_in (state_after (main int st ss inp)) = true
       ∧ ∃ r df, lead_data (state_after (main int st ss inp))
                 = Some (r :: df)
                 ∧ board = render_dashboard int (r :: df)
                             (init_selections main_keys ss) inp)
  ∧ (st_warning no_data_message ∈ events (main int st ss inp)
     ↔ logged_in (state_after (main int st ss inp)) = true
       ∧ (lead_data (state_after (main int st ss inp)) = None
          ∨ lead_data (state_after (main int st ss inp)) = Some []))
  ∧ (lead_data st = Some [] → shown (main int st ss inp) = None).
Proof.
  intros Hinv%reachable_login_invariant.
  destruct (main_data_step int st ss inp Hinv)
    as (Hkeep & Hfetching & Hfetched & Hshown & Hnodata).
  split.
  { intros df Hld. split; [by apply Hkeep|].
    rewrite Hfetching. intros [_ Hnone]. congruence. }
  split; [exact Hfetching|]. split.
  { intros Hli Hnone. rewrite (Hfetched Hli Hnone).
    destruct (query_result inp) as [[|r records]|e]; reflexivity. }
  split; [exact Hshown|]. split; [exact Hnodata|].
  intros Hld. destruct (shown (main int st ss inp)) as [board|] eqn:Hb;
    [|reflexivity].
  destruct (proj1 (Hshown board) eq_refl) as (_ & r & df & Heq & _).
  rewrite (Hkeep [] Hld) in Heq. discriminate.
Qed.

Lemma lead_data_fetched_once_witness :
  lead_data
    (state_after
       (main int_of_digits initial_app_state ∅
          (example_inputs (login_ok "sid" "na1")
             (query_records
                [example_row (Some "tx") None None (Some "Website")
                             (Some "New")]))))
  = Some (process_lead_records
            [example_row (Some "tx") None None (Some "Website")
                         (Some "New")]).
Proof.
  apply (lead_data_fetched_once int_of_digits initial_app_state ∅
           (example_inputs (login_ok "sid" "na1")
              (query_records
                 [example_row (Some "tx") None None (Some "Website")
                              (Some "New")]))).
  - apply reachable_state_initial.
  - reflexivity.
  - reflexivity.
Defined.

(** ** The dashboard of a frame *)

Lemma us_map_visualization_nil : us_map_visualization [] = ∅.
Proof.
  apply map_eq. intros st. rewrite lookup_empty.
  apply us_map_no_row_without_displayed_source.
  by intros r ?%elem_of_nil.
Qed.

(** X23: a selection that no lead passes is not an error: the sidebar
    shows a total of 0, the analysis and monthly sections and the grid of
    records each give their notice in place of a table, and the map, when
    switched on, is drawn from a table without rows.  When some lead
    passes, each section that is switched on has its table and the grid is
    between 200 and 600 high. *)
Theorem dashboard_of_empty_selection
    (int : string → option Z) (df_leads : list lead) (ss : session)
    (inp : run_inputs) :
  let board := render_dashboard int df_leads ss inp in
  (df_filtered (filtering board) = [] →
   last (sidebar (filtering board)) = Some (sidebar_write_total_leads 0)
   ∧ analysis board = None ∧ monthly board = None
   ∧ records_table board = None
   ∧ (us_map_checked inp = true → us_map board = Some ∅))
  ∧ (df_filtered (filtering board) ≠ [] →
     (lead_analysis_checked inp = true → is_Some (analysis board))
     ∧ (monthly_distribution_checked inp = true → is_Some (monthly board))
     ∧ (us_map_checked inp = true → is_Some (us_map board))
     ∧ ∃ h, records_table board = Some h ∧ (200 ≤ h ≤ 600)%Z).
Proof.
  intros board. unfold board, render_dashboard.
  cbn [filtering analysis monthly us_map records_table].
  pose proof (filtering_section_last_event int df_leads ss
                (date_from inp) (date_to inp) (lead_analysis_checked inp)
                (monthly_distribution_checked inp) (us_map_checked inp))
    as Hlast.
  set (res := filtering_section int df_leads ss _ _ _ _ _) in *.
  assert (show_lead_analysis res = lead_analysis_checked inp
          ∧ show_monthly_distribution res = monthly_distribution_checked inp
          ∧ show_us_map res = us_map_checked inp) as (-> & -> & ->).
  { unfold res, filtering_section.
    by destruct (year_filter int _ df_leads). }
  split.
  - intros Hnil.
    split; [by rewrite Hlast, Hnil|].
    rewrite Hnil. cbn [lead_analysis_charts monthly_lead_distribution_chart
                       filtered_records_table].
    split; [by destruct (lead_analysis_checked inp)|].
    split; [by destruct (monthly_distribution_checked inp)|].
    split; [reflexivity|]. intros ->. by rewrite us_map_visualization_nil.
  - intros Hne. destruct (df_filtered res) as [|r df] eqn:Hdf; [done|].
    split; [intros ->; cbn; eauto|]. split; [intros ->; cbn; eauto|].
    split; [intros ->; eauto|].
    eexists. split; [reflexivity|].
    unfold default_table_height, calculate_table_height. lia.
Qed.

Lemma dashboard_of_empty_selection_witness :
  analysis
    (render_dashboard int_of_digits example_frame
       (<["owner_selection" := ["Zed"]]> initial_session)
       (example_inputs (login_ok "sid" "na1") (query_records []))) = None.
Proof.
  apply (dashboard_of_empty_selection int_of_digits example_frame
           (<["owner_selection" := ["Zed"]]> initial_session)
           (example_inputs (login_ok "sid" "na1") (query_records []))).
  vm_compute. reflexivity.
Defined.

(** ** Wider selections *)

Lemma date_leb_spec d1 d2 :
  date_leb d1 d2 = true
  ↔ (Raw.year d1 < Raw.year d2
     ∨ (Raw.year d1 = Raw.year d2
        ∧ (Raw.month d1 < Raw.month d2
           ∨ (Raw.month d1 = Raw.month d2 ∧ Raw.day d1 ≤ Raw.day d2))))%Z.
Proof.
  unfold date_leb.
  rewrite !orb_true_iff, !andb_true_iff, !orb_true_iff, !andb_true_iff.
  rewrite !Z.ltb_lt, !Z.eqb_eq, Z.leb_le. reflexivity.
Qed.

Lemma date_leb_trans d1 d2 d3 :
  date_leb d1 d2 = true → date_leb d2 d3 = true → date_leb d1 d3 = true.
Proof. rewrite !date_leb_spec. lia. Qed.

Lemma mapM_elem_of {A B} (f : A → option B) (l : list A) (k : list B) y :
  mapM f l = Some k → (y ∈ k ↔ ∃ x, x ∈ l ∧ f x = Some y).
Proof.
  intros Hall%mapM_Some. induction Hall as [|x z l k Hx _ IH].
  { split; [by intros ?%elem_of_nil|by intros (? & ?%elem_of_nil & _)]. }
  rewrite elem_of_cons, IH. split.
  - intros [->|(x' & Hin & Hf)]; [exists x; split; [left|done]|].
    exists x'. split; [by right|done].
  - intros (x' & [->|Hin]%elem_of_cons & Hf); [left; congruence|].
    right. eauto.
Qed.

Lemma mapM_is_Some_elem_of {A B} (f : A → option B) (l : list A) :
  is_Some (mapM f l) ↔ ∀ x, x ∈ l → is_Some (f x).
Proof. rewrite mapM_is_Some, Forall_forall. reflexivity. Qed.

Lemma selection_keeps_mono sel sel' cell :
  wider_selection sel sel' →
  selection_keeps sel cell = true → selection_keeps sel' cell = true.
Proof.
  intros [Hall'|Hsub]; unfold selection_keeps;
    rewrite !orb_true_iff, !str_in_true; [by left|].
  intros [Hall|Hin]; [left; auto|]. right.
  destruct cell as [s|]; cbn [isin] in *; [|done].
  apply str_in_true. apply str_in_true in Hin. auto.
Qed.

Lemma year_keeps_mono int sel sel' y :
  wider_selection sel sel' →
  year_keeps int sel y = true → year_keeps int sel' y = true.
Proof.
  intros [Hall'|Hsub]; unfold year_keeps;
    rewrite !orb_true_iff, !str_in_true; [by left|].
  intros [Hall|Hkeep]; [left; auto|]. right.
  destruct (mapM int sel') as [years'|] eqn:Hsel'; [|reflexivity].
  assert (is_Some (mapM int sel)) as [years Hsel].
  { apply mapM_is_Some_elem_of. intros x Hx.
    apply (proj1 (mapM_is_Some_elem_of int sel')); eauto. }
  rewrite Hsel in Hkeep. apply bool_decide_eq_true in Hkeep.
  apply bool_decide_eq_true.
  apply (mapM_elem_of int sel years y Hsel) in Hkeep as (x & Hx & Hfx).
  apply (mapM_elem_of int sel' years' y Hsel'). eauto.
Qed.

Lemma filter_sublist_mono {A} (P Q : A → Prop)
    `{!∀ x, Decision (P x), !∀ x, Decision (Q x)} (l : list A) :
  (∀ x, P x → Q x) → filter P l `sublist_of` filter Q l.
Proof.
  intros Himp. rewrite <- (list_filter_filter_l P Q l Himp).
  apply sublist_filter.
Qed.

(** X24: showing more never hides a lead: when every selection is widened
    (values added, or "All") and a valid date range is widened, each lead
    of the former result is in the new result, in the same order. *)
Theorem wider_selection_shows_more
    (int : string → option Z) (df : list lead) (ss ss' : session)
    (date_from date_to date_from' date_to' : Raw.date) (a b c : bool) :
  selections_included (init_selections filtering_keys ss)
                      (init_selections filtering_keys ss') →
  date_leb date_from date_to = true →
  date_leb date_from' date_from = true →
  date_leb date_to date_to' = true →
  df_filtered (filtering_section int df ss date_from date_to a b c)
  `sublist_of`
  df_filtered (filtering_section int df ss' date_from' date_to' a b c).
Proof.
  intros Hsel Hvalid Hfrom Hto. rewrite !filtering_section_filter.
  apply filter_sublist_mono. intros r. rewrite !Is_true_true.
  unfold lead_kept. rewrite !andb_true_iff.
  intros (((((Hy & Ho) & Hs) & Ht) & Hp) & Hd).
  repeat split.
  - by apply (year_keeps_mono int _ _ _ (Hsel Year)).
  - by apply (selection_keeps_mono _ _ _ (Hsel Owner)).
  - by apply (selection_keeps_mono _ _ _ (Hsel Lead_Source)).
  - by apply (selection_keeps_mono _ _ _ (Hsel Lead_Status)).
  - by apply (selection_keeps_mono _ _ _ (Hsel Product)).
  - unfold range_keeps in *. rewrite Hvalid in Hd. cbn [negb orb] in Hd.
    apply andb_true_iff in Hd as [Hd1 Hd2].
    apply orb_true_iff. right. apply andb_true_iff.
    split; eauto using date_leb_trans.
Qed.

Lemma wider_selection_shows_more_witness :
  df_filtered
    (filtering_section int_of_digits example_frame
       (<["owner_selection" := ["Ann"]]> initial_session)
       (example_date 2024 2 1) (example_date 2024 3 31) true true true)
  `sublist_of`
  df_filtered
    (filtering_section int_of_digits example_frame initial_session
       (example_date 2024 1 1) (example_date 2024 3 31) true true true).
Proof.
  apply (wider_selection_shows_more int_of_digits example_frame
           (<["owner_selection" := ["Ann"]]> initial_session)
           initial_session).
  - intros d. destruct d; left; vm_compute; left.
  - reflexivity.
  - reflexivity.
  - reflexivity.
Defined.

Lemma lead_source_table_canonical_witness :
  ∃ t,
    lead_analysis_charts
      (df_filtered
         (filtering_section int_of_digits
            (process_lead_records
               [ example_row (Some "ca") None None (Some "Bing") (Some "New");
                 example_row (Some "Texas") None None None (Some "New") ])
            initial_session (example_date 2024 1 1) (example_date 2024 12 31)
            true true true)) = Some t
    ∧ size (lead_source_counts t) ≤ 6.
Proof.
  destruct (lead_analysis_charts _) as [t|] eqn:Ht.
  - exists t. split; [reflexivity|].
    by apply (lead_source_table_canonical int_of_digits _ _ _ _ _ _ _ t Ht).
  - vm_compute in Ht. discriminate.
Defined.
